(** * Quiz lifecycle and answer verification: a shallow embedding

    The development follows the server sources:
    - [server/routes.ts]: the HTTP handlers (quiz creation, the four quiz
      read paths, attempt submission, answer verification);
    - the retention sweeper ([cleanupExpiredQuizzes]);
    - [shared/schema.ts]: the row types of the three tables.

    JavaScript strings are modelled as [string]; a character stands for the
    code point of the same number (U+0000 .. U+00FF), which is the range on
    which [toLowerCase] and [trim] are defined below exactly as ECMAScript
    defines them.  Integers are [Z]; timestamps are milliseconds since the
    epoch, as [Date.prototype.getTime] reports them. *)

From Stdlib Require Import ZArith List String Ascii Bool Lia Sorted.
From stdpp Require Import base gmap sets list strings pretty.

Local Open Scope string_scope.
Local Open Scope Z_scope.

Set Warnings "-register-all".

(** ** JavaScript built-ins used by the handlers *)

Module Js.

(** Errors that the handlers can catch. *)
Inductive JsError :=
| ZodError
| SyntaxError (message : string)
| TypeError (message : string)
| Error (message : string).

(** The outcome of evaluating an expression that may throw. *)
Inductive Exc (A : Type) :=
| Throw (e : JsError)
| Ok (a : A).
Global Arguments Throw {A} e.
Global Arguments Ok {A} a.

Definition bindExc {A B} (m : Exc A) (k : A -> Exc B) : Exc B :=
  match m with
  | Throw e => Throw e
  | Ok a => k a
  end.

Declare Scope exc_scope.
Delimit Scope exc_scope with exc.
Notation "x <- m ;; k" := (bindExc m (fun x => k))
  (at level 100, m at next level, right associativity) : exc_scope.

(** [String(error)] *)
Definition String_ (e : JsError) : string :=
  match e with
  | ZodError => "ZodError"
  | SyntaxError m => "SyntaxError: " +:+ m
  | TypeError m => "TypeError: " +:+ m
  | Error m => "Error: " +:+ m
  end.

Definition code (c : ascii) : Z := Z.of_N (N_of_ascii c).
Definition fromCode (n : Z) : ascii := ascii_of_N (Z.to_N n).

(** Code points with a simple lowercase mapping below U+0100:
    A-Z, and the Latin-1 capitals U+00C0-U+00DE but for U+00D7. *)
Definition isUpper (c : ascii) : bool :=
  let n := code c in
  ((65 <=? n) && (n <=? 90))
  || ((192 <=? n) && (n <=? 214))
  || ((216 <=? n) && (n <=? 222)).

Definition toLowerChar (c : ascii) : ascii :=
  if isUpper c then fromCode (code c + 32) else c.

(** [String.prototype.toLowerCase] *)
Fixpoint toLowerCase (s : string) : string :=
  match s with
  | EmptyString => EmptyString
  | String c r => String (toLowerChar c) (toLowerCase r)
  end.

(** WhiteSpace and LineTerminator code points below U+0100:
    TAB, LF, VT, FF, CR, SP and NBSP. *)
Definition isWhiteSpace (c : ascii) : bool :=
  let n := code c in
  ((9 <=? n) && (n <=? 13)) || (n =? 32) || (n =? 160).

(** [String.prototype.trimStart] *)
Fixpoint trimStart (s : string) : string :=
  match s with
  | EmptyString => EmptyString
  | String c r => if isWhiteSpace c then trimStart r else s
  end.

(** [String.prototype.trimEnd] *)
Fixpoint trimEnd (s : string) : string :=
  match s with
  | EmptyString => EmptyString
  | String c r =>
      match trimEnd r with
      | EmptyString => if isWhiteSpace c then EmptyString else String c EmptyString
      | r' => String c r'
      end
  end.

(** [String.prototype.trim] *)
Definition trim (s : string) : string := trimEnd (trimStart s).

(** The value of a digit in the given radix, if it is one. *)
Definition digitValue (radix : Z) (c : ascii) : option Z :=
  let n := code c in
  let v :=
    if (48 <=? n) && (n <=? 57) then n - 48
    else if (97 <=? n) && (n <=? 122) then n - 97 + 10
    else if (65 <=? n) && (n <=? 90) then n - 65 + 10
    else 36 in
  if v <? radix then Some v else None.

(** The longest prefix of digits, read in the radix, with an accumulator;
    [None] when the prefix is empty. *)
Fixpoint digitsPrefix (radix : Z) (acc : option Z) (s : string) : option Z :=
  match s with
  | EmptyString => acc
  | String c r =>
      match digitValue radix c with
      | None => acc
      | Some v =>
          digitsPrefix radix
            (Some (match acc with None => v | Some a => a * radix + v end)) r
      end
  end.

(** [parseInt(string)] with no radix argument; [None] is [NaN].  The
    integer is exact here, where a Number rounds beyond 2^53. *)
Definition parseInt (input : string) : option Z :=
  let s := trimStart input in
  let '(sign, s) :=
    match s with
    | String "-" r => (-1, r)
    | String "+" r => (1, r)
    | _ => (1, s)
    end in
  let '(radix, s) :=
    match s with
    | String "0" (String "x" r) => (16, r)
    | String "0" (String "X" r) => (16, r)
    | _ => (10, s)
    end in
  match digitsPrefix radix None s with
  | None => None
  | Some n => Some (sign * n)
  end.

(** [haystack.includes(needle)] *)
Fixpoint includes (needle haystack : string) : bool :=
  String.prefix needle haystack
  || match haystack with
     | EmptyString => false
     | String _ r => includes needle r
     end.

(** Values that [JSON.parse] can produce. *)
Inductive JsVal :=
| JNull
| JBool (b : bool)
| JNum (n : Z)
| JStr (s : string)
| JArr (items : list JsVal)
| JObj (fields : list (string * JsVal)).

(** [v.toLowerCase().trim()] for a value of unknown type: only strings
    have the method. *)
Definition lowerTrim (v : JsVal) : Exc string :=
  match v with
  | JStr s => Ok (trim (toLowerCase s))
  | _ => Throw (TypeError "correct.toLowerCase is not a function")
  end.

(** [Array.prototype.map] with a callback that may throw. *)
Fixpoint mapExc {A B} (cb : A -> Exc B) (l : list A) : Exc (list B) :=
  match l with
  | nil => Ok nil
  | x :: r => (y <- cb x ;; ys <- mapExc cb r ;; Ok (y :: ys))%exc
  end.

(** [Array.prototype.some]: stops at the first element accepted. *)
Fixpoint someExc {A} (cb : A -> Exc bool) (l : list A) : Exc bool :=
  match l with
  | nil => Ok false
  | x :: r => (b <- cb x ;; if b then Ok true else someExc cb r)%exc
  end.

End Js.

(** ** Rows of the three tables ([shared/schema.ts]) *)

Module Schema.
Import Js.

(** A TEXT column holding JSON is represented by what [JSON.parse] makes of
    it: a value, or nothing when the text is not JSON. *)
Definition JsonText := option JsVal.

(** [JSON.parse(text)] *)
Definition JSON_parse (t : JsonText) : Exc JsVal :=
  match t with
  | Some v => Ok v
  | None => Throw (SyntaxError "Unexpected token in JSON")
  end.

(** What the driver hands back for a JSON column: the text, or an array
    already decoded (the case [Array.isArray] tests for). *)
Inductive JsonColumn :=
| ColArray (items : list JsVal)
| ColText (t : JsonText).

Record Quiz := {
  quiz_id : Z;
  creatorId : Z;
  creatorName : string;
  accessCode : string;
  urlSlug : string;
  dashboardToken : string;
  createdAt : Z
}.

(** [insertQuizSchema]: a quiz without [id] and [createdAt]. *)
Record InsertQuiz := {
  ins_creatorId : Z;
  ins_creatorName : string;
  ins_accessCode : string;
  ins_urlSlug : string;
  ins_dashboardToken : string
}.

Record Question := {
  question_id : Z;
  question_quizId : Z;
  text : string;
  type : string;
  options : JsonColumn;
  correctAnswers : JsonColumn;
  hint : option string;
  order : Z;
  imageUrl : option string
}.

(** The request's answer after validation: [z.union([z.string(),
    z.array(z.string())])]. *)
Inductive Answer :=
| AnswerString (s : string)
| AnswerArray (l : list string).

(** [questionAnswerSchema] *)
Record QuestionAnswer := {
  qa_questionId : Z;
  userAnswer : Answer;
  isCorrect : option bool
}.

Record QuizAttempt := {
  attempt_id : Z;
  attempt_quizId : Z;
  userAnswerId : Z;
  userName : string;
  score : Z;
  totalQuestions : Z;
  answers : list QuestionAnswer;
  completedAt : Z
}.

(** [insertQuizAttemptSchema]: an attempt without [id] and [completedAt]. *)
Record InsertQuizAttempt := {
  ins_quizId : Z;
  ins_userAnswerId : Z;
  ins_userName : string;
  ins_score : Z;
  ins_totalQuestions : Z;
  ins_answers : list QuestionAnswer
}.

Record Db := {
  quizzes : list Quiz;
  questions : list Question;
  quizAttempts : list QuizAttempt
}.

End Schema.

(** ** HTTP responses *)

Module Http.
Import Schema.

Inductive Body :=
| Message (message : string)
| MessageCode (message error : string)
| MessageZod (message : string)
| Expired (message : string) (expired : bool) (detail : string)
| QuizJson (quiz : Quiz)
| AttemptJson (attempt : QuizAttempt)
| IsCorrect (isCorrect : bool).

Record Response := { status : Z; body : Body }.

(** [res.status(code).json(body)]; [res.json(body)] is [json 200 body]. *)
Definition json (code : Z) (b : Body) : Response :=
  {| status := code; body := b |}.

End Http.

(** ** The answer verifier ([POST /api/questions/:questionId/verify]) *)

Module Verify.
Import Js Schema Http.

(** The elements of an array, or the TypeError of calling an array method
    on something else. *)
Definition arrayItems (method : string) (v : JsVal) : Exc (list JsVal) :=
  match v with
  | JArr items => Ok items
  | _ => Throw (TypeError ("correctAnswers." +:+ method +:+ " is not a function"))
  end.

(** [new Set(strings)] *)
Definition newSet (l : list string) : gset string := list_to_set l.

(** The computation of [isCorrect] in the handler: set equality for an
    array answer, any match for a string answer. *)
Definition verifyAnswer (correctAnswers : JsVal) (userAnswer : Answer) : Exc bool :=
  match userAnswer with
  | AnswerArray userAnswer =>
      let userAnswersSet :=
        newSet (map (fun ans => trim (toLowerCase ans)) userAnswer) in
      (items <- arrayItems "map" correctAnswers ;;
       normalized <- mapExc lowerTrim items ;;
       let correctAnswersSet := newSet normalized in
       Ok (bool_decide (size userAnswersSet = size correctAnswersSet)
           && forallb (fun ans => bool_decide (ans ∈ correctAnswersSet))
                (elements userAnswersSet)))%exc
  | AnswerString userAnswer =>
      let normalizedUserAnswer := trim (toLowerCase userAnswer) in
      (items <- arrayItems "some" correctAnswers ;;
       someExc (fun correct =>
                  c <- lowerTrim correct ;;
                  Ok (String.eqb c normalizedUserAnswer))
               items)%exc
  end.

(** [Array.isArray(x) ? x : JSON.parse(x)] *)
Definition decodeCorrectAnswers (c : JsonColumn) : Exc JsVal :=
  match c with
  | ColArray items => Ok (JArr items)
  | ColText t => JSON_parse t
  end.

Fixpoint lookupField (name : string) (fields : list (string * JsVal)) : option JsVal :=
  match fields with
  | nil => None
  | (k, v) :: r => if String.eqb k name then Some v else lookupField name r
  end.

Fixpoint allStrings (items : list JsVal) : option (list string) :=
  match items with
  | nil => Some nil
  | JStr s :: r => option_map (cons s) (allStrings r)
  | _ :: _ => None
  end.

(** [z.object({ answer: z.union([z.string(), z.array(z.string())]) })
    .parse(req.body)] *)
Definition parseAnswerBody (reqBody : JsVal) : Exc Answer :=
  match reqBody with
  | JObj fields =>
      match lookupField "answer" fields with
      | Some (JStr s) => Ok (AnswerString s)
      | Some (JArr items) =>
          match allStrings items with
          | Some l => Ok (AnswerArray l)
          | None => Throw ZodError
          end
      | _ => Throw ZodError
      end
  | _ => Throw ZodError
  end.

(** The [catch] block of the handler. *)
Definition verifyCatch (r : Exc Response) : Response :=
  match r with
  | Ok res => res
  | Throw ZodError => json 400 (MessageZod "Invalid answer data")
  | Throw _ => json 500 (Message "Failed to verify answer")
  end.

Definition verifyRoute (db : Db) (questionIdParam : string) (reqBody : JsVal) : Response :=
  verifyCatch
    match parseInt questionIdParam with
    | None => Ok (json 400 (Message "Invalid question ID"))
    | Some questionId =>
        (userAnswer <- parseAnswerBody reqBody ;;
         match find (fun q => question_id q =? questionId) (questions db) with
         | None => Ok (json 404 (Message "Question not found"))
         | Some question =>
             correct <- decodeCorrectAnswers (correctAnswers question) ;;
             isCorrect <- verifyAnswer correct userAnswer ;;
             Ok (json 200 (IsCorrect isCorrect))
         end)%exc
    end.

End Verify.

(** ** The storage layer *)

Module Storage.
Import Js Schema Verify.

Definition sevenDays : Z := 7 * 24 * 60 * 60 * 1000.

(** Modelled from the spec: [storage.getQuiz] is absent from the sources;
    section 4.4 has it look the quiz up by its id. *)
Definition getQuiz (db : Db) (id : Z) : option Quiz :=
  find (fun q => quiz_id q =? id) (quizzes db).

(** Modelled from the spec: [storage.getQuizByAccessCode] is absent from
    the sources; section 4.4 has it look the quiz up by its access code. *)
Definition getQuizByAccessCode (db : Db) (code : string) : option Quiz :=
  find (fun q => String.eqb (accessCode q) code) (quizzes db).

(** Modelled from the spec: [storage.getQuizByUrlSlug] is absent from the
    sources; section 4.4 has it look the quiz up by its slug (the handler
    adds the case-insensitive fallback). *)
Definition getQuizByUrlSlug (db : Db) (slug : string) : option Quiz :=
  find (fun q => String.eqb (urlSlug q) slug) (quizzes db).

(** Modelled from the spec: [storage.getQuizByDashboardToken] is absent
    from the sources; section 4.4 has it look the quiz up by its token. *)
Definition getQuizByDashboardToken (db : Db) (token : string) : option Quiz :=
  find (fun q => String.eqb (dashboardToken q) token) (quizzes db).

(** Modelled from the spec: [storage.isQuizExpired] is absent from the
    sources; section 4.2 defines
    [isExpired(quiz, now) = now > quiz.createdAt + 7 days]. *)
Definition isQuizExpired (now : Z) (quiz : Quiz) : bool :=
  createdAt quiz + sevenDays <? now.

Definition nextId (ids : list Z) : Z := 1 + fold_right Z.max 0 ids.

(** Modelled from the spec: [storage.createQuiz] is absent from the
    sources; section 3 has the quiz persisted with a fresh id and
    [createdAt] set once, at creation. *)
Definition createQuiz (db : Db) (now : Z) (d : InsertQuiz) : Db * Quiz :=
  let quiz :=
    {| quiz_id := nextId (map quiz_id (quizzes db));
       creatorId := ins_creatorId d;
       creatorName := ins_creatorName d;
       accessCode := ins_accessCode d;
       urlSlug := ins_urlSlug d;
       dashboardToken := ins_dashboardToken d;
       createdAt := now |} in
  ({| quizzes := quizzes db ++ [quiz];
      questions := questions db;
      quizAttempts := quizAttempts db |}, quiz).

(** Modelled from the spec: the per-answer step of [recordAttempt]
    (section 4.4), which invokes the Answer Verifier of section 4.3 on the
    stored question; the verifier itself is the handler's.  An answer to a
    question that the quiz does not have earns nothing. *)
Definition verifyStored (db : Db) (quizId : Z) (a : QuestionAnswer) : Exc bool :=
  match find (fun q => (question_id q =? qa_questionId a)
                       && (question_quizId q =? quizId)) (questions db) with
  | None => Ok false
  | Some question =>
      (correct <- decodeCorrectAnswers (correctAnswers question) ;;
       verifyAnswer correct (userAnswer a))%exc
  end.

Definition clamp (lo hi x : Z) : Z := Z.max lo (Z.min hi x).

(** Modelled from the spec: [storage.createQuizAttempt] is absent from the
    sources; section 4.4 ([recordAttempt]) has it recompute the score by
    invoking the Answer Verifier per answer rather than trusting the
    submitted score, and clamp it to [0, questionCount]. *)
Definition createQuizAttempt (db : Db) (now : Z) (d : InsertQuizAttempt)
  : Exc (Db * QuizAttempt) :=
  let questionCount :=
    Z.of_nat (length (List.filter (fun q => question_quizId q =? ins_quizId d)
                                  (questions db))) in
  (verdicts <- mapExc (verifyStored db (ins_quizId d)) (ins_answers d) ;;
  let recomputed := Z.of_nat (length (List.filter (fun b : bool => b) verdicts)) in
  let attempt :=
    {| attempt_id := nextId (map attempt_id (quizAttempts db));
       attempt_quizId := ins_quizId d;
       userAnswerId := ins_userAnswerId d;
       userName := ins_userName d;
       score := clamp 0 questionCount recomputed;
       totalQuestions := questionCount;
       answers :=
         map (fun '(a, b) =>
                {| qa_questionId := qa_questionId a;
                   userAnswer := userAnswer a;
                   isCorrect := Some b |})
             (combine (ins_answers d) verdicts);
       completedAt := now |} in
  Ok ({| quizzes := quizzes db;
         questions := questions db;
         quizAttempts := quizAttempts db ++ [attempt] |}, attempt))%exc.

End Storage.

(** ** The quiz and attempt handlers ([server/routes.ts]) *)

Module Routes.
Import Js Schema Http Storage.

Definition notFound : Response := json 404 (Message "Quiz not found").

Definition quizExpired : Response :=
  json 410
    (Expired "Quiz expired" true
       "This quiz has expired. Quizzes are available for 7 days after creation.").

(** The tail shared by the four read handlers once a quiz is found. *)
Definition sendQuiz (now : Z) (quiz : Quiz) : Response :=
  if isQuizExpired now quiz then quizExpired else json 200 (QuizJson quiz).

(** [POST /api/quizzes]; the request body is given by what
    [insertQuizSchema.parse] makes of it. *)
Definition createQuizRoute (db : Db) (now : Z) (reqBody : Exc InsertQuiz)
  : Db * Response :=
  match reqBody with
  | Throw ZodError => (db, json 400 (MessageZod "Invalid quiz data"))
  | Throw _ => (db, json 500 (Message "Failed to create quiz"))
  | Ok quizData =>
      if String.eqb (ins_creatorName quizData) ""
         || String.eqb (trim (ins_creatorName quizData)) ""
      then (db, json 400 (MessageCode "Creator name cannot be empty"
                            "EMPTY_CREATOR_NAME"))
      else if String.eqb (toLowerCase (ins_creatorName quizData)) "emydan"
      then (db, json 400
                  (MessageCode
                     "Cannot use default creator name. Please enter your own name."
                     "DEFAULT_CREATOR_NAME_USED"))
      else
        let '(db', quiz) := createQuiz db now quizData in
        (db', json 201 (QuizJson quiz))
  end.

(** [GET /api/quizzes/code/:accessCode] *)
Definition quizByCodeRoute (db : Db) (now : Z) (accessCode : string) : Response :=
  match getQuizByAccessCode db accessCode with
  | None => notFound
  | Some quiz => sendQuiz now quiz
  end.

(** [GET /api/quizzes/slug/:urlSlug], with its case-insensitive fallback
    over all quizzes. *)
Definition quizBySlugRoute (db : Db) (now : Z) (urlSlug_ : string) : Response :=
  match getQuizByUrlSlug db urlSlug_ with
  | Some quiz => sendQuiz now quiz
  | None =>
      match find (fun q => String.eqb (toLowerCase (urlSlug q))
                                      (toLowerCase urlSlug_)) (quizzes db) with
      | Some slugMatch => sendQuiz now slugMatch
      | None => notFound
      end
  end.

(** [GET /api/quizzes/dashboard/:token] *)
Definition quizByTokenRoute (db : Db) (now : Z) (token : string) : Response :=
  match getQuizByDashboardToken db token with
  | None => notFound
  | Some quiz => sendQuiz now quiz
  end.

(** [GET /api/quizzes/:quizId] *)
Definition quizByIdRoute (db : Db) (now : Z) (quizIdParam : string) : Response :=
  match parseInt quizIdParam with
  | None => json 400 (Message "Invalid quiz ID")
  | Some quizId =>
      match getQuiz db quizId with
      | None => notFound
      | Some quiz => sendQuiz now quiz
      end
  end.

(** [POST /api/quiz-attempts]; the request body is given by what
    [insertQuizAttemptSchema.parse] makes of it. *)
Definition createAttemptRoute (db : Db) (now : Z) (reqBody : Exc InsertQuizAttempt)
  : Db * Response :=
  match bindExc reqBody (createQuizAttempt db now) with
  | Ok (db', attempt) => (db', json 201 (AttemptJson attempt))
  | Throw ZodError => (db, json 400 (MessageZod "Invalid attempt data"))
  | Throw _ => (db, json 500 (Message "Failed to create quiz attempt"))
  end.

End Routes.

(** ** The retention sweeper ([cleanupExpiredQuizzes]) *)

Module Cleanup.
Import Js Schema Storage.

(** The statements and calls that a sweep issues, in order. *)
Inductive Op :=
| SelectExpired (cutoff : Z)
| CleanupImages (quizIds : list Z)
| DeleteAttempts (quizIds : list Z)
| DeleteQuestions (quizIds : list Z)
| DeleteQuizzes (quizIds : list Z).

(** Which of the statements and calls fail, and with what error. *)
Record Faults := {
  selectFault : option JsError;
  imagesFault : option JsError;
  deleteAttemptsFault : option JsError;
  deleteQuestionsFault : option JsError;
  deleteQuizzesFault : option JsError
}.

Definition noFaults : Faults :=
  {| selectFault := None; imagesFault := None; deleteAttemptsFault := None;
     deleteQuestionsFault := None; deleteQuizzesFault := None |}.

Record World := { db : Db; issued : list Op }.

(** Computations over the database that may throw. *)
Definition M (A : Type) : Type := World -> World * Exc A.

Definition ret {A} (a : A) : M A := fun w => (w, Ok a).

Definition bind {A B} (m : M A) (k : A -> M B) : M B :=
  fun w =>
    match m w with
    | (w', Ok a) => k a w'
    | (w', Throw e) => (w', Throw e)
    end.

(** [try { body } catch (e) { handler(e) }] *)
Definition tryCatch {A} (body : M A) (handler : JsError -> M A) : M A :=
  fun w =>
    match body w with
    | (w', Ok a) => (w', Ok a)
    | (w', Throw e) => handler e w'
    end.

Declare Scope sweep_scope.
Delimit Scope sweep_scope with sweep.
Notation "x <- m ;; k" := (bind m (fun x => k))
  (at level 100, m at next level, right associativity) : sweep_scope.
Notation "m ;;; k" := (bind m (fun _ => k))
  (at level 100, right associativity) : sweep_scope.

(** A statement: it is recorded as issued, then fails without effect or
    updates the tables and yields its rows. *)
Definition statement {A} (op : Op) (fault : option JsError)
    (run : Db -> Db * A) : M A :=
  fun w =>
    let w1 := {| db := db w; issued := issued w ++ [op] |} in
    match fault with
    | Some e => (w1, Throw e)
    | None =>
        let '(d, a) := run (db w) in
        ({| db := d; issued := issued w1 |}, Ok a)
    end.

(** [getRetentionCutoffDate]: seven calendar days before now, which is
    seven times 24 hours where the server's zone has no clock change in
    between. *)
Definition getRetentionCutoffDate (now : Z) : Z := now - sevenDays.

(** [inArray(column, ids)] *)
Definition inArray (x : Z) (ids : list Z) : bool := bool_decide (x ∈ ids).

(** The object that a sweep returns; absent keys are [None]. *)
Record CleanupResult := {
  success : bool;
  message : string;
  count : option Z;
  quizIds : option (list Z);
  error : option string
}.

Section Sweep.
Variable faults : Faults.

(** [db.select().from(quizzes).where(lt(quizzes.createdAt, cutoff))] *)
Definition selectExpired (cutoff : Z) : M (list Quiz) :=
  statement (SelectExpired cutoff) (selectFault faults)
    (fun d => (d, List.filter (fun q => createdAt q <? cutoff) (quizzes d))).

(** Modelled from the spec: [cleanupOldQuizImages] is absent from the
    sources; section 4.5 step 4 has it delete externally hosted images,
    which are outside the tables, and allows it to fail. *)
Definition cleanupOldQuizImages (quizIds : list Z) : M unit :=
  statement (CleanupImages quizIds) (imagesFault faults) (fun d => (d, tt)).

(** [db.delete(quizAttempts).where(inArray(quizAttempts.quizId, ids))] *)
Definition deleteAttempts (ids : list Z) : M unit :=
  statement (DeleteAttempts ids) (deleteAttemptsFault faults)
    (fun d =>
       ({| quizzes := quizzes d;
           questions := questions d;
           quizAttempts :=
             List.filter (fun a => negb (inArray (attempt_quizId a) ids))
               (quizAttempts d) |}, tt)).

(** [db.delete(questions).where(inArray(questions.quizId, ids))] *)
Definition deleteQuestions (ids : list Z) : M unit :=
  statement (DeleteQuestions ids) (deleteQuestionsFault faults)
    (fun d =>
       ({| quizzes := quizzes d;
           questions :=
             List.filter (fun q => negb (inArray (question_quizId q) ids))
               (questions d);
           quizAttempts := quizAttempts d |}, tt)).

(** [db.delete(quizzes).where(inArray(quizzes.id, ids))] *)
Definition deleteQuizzes (ids : list Z) : M unit :=
  statement (DeleteQuizzes ids) (deleteQuizzesFault faults)
    (fun d =>
       ({| quizzes :=
             List.filter (fun q => negb (inArray (quiz_id q) ids)) (quizzes d);
           questions := questions d;
           quizAttempts := quizAttempts d |}, tt)).

Definition cleanupExpiredQuizzes (now : Z) : M CleanupResult :=
  tryCatch
    (let cutoffDate := getRetentionCutoffDate now in
     expiredQuizzes <- selectExpired cutoffDate ;;
     match expiredQuizzes with
     | nil =>
         ret {| success := true;
                message := "No expired quizzes found to clean up";
                count := Some 0;
                quizIds := None;
                error := None |}
     | _ :: _ =>
         let expiredQuizIds := map quiz_id expiredQuizzes in
         tryCatch (cleanupOldQuizImages expiredQuizIds) (fun _ => ret tt) ;;;
         deleteAttempts expiredQuizIds ;;;
         deleteQuestions expiredQuizIds ;;;
         deleteQuizzes expiredQuizIds ;;;
         let n := Z.of_nat (length expiredQuizzes) in
         ret {| success := true;
                message := "Cleaned up " +:+ pretty n +:+ " expired quizzes";
                count := Some n;
                quizIds := Some expiredQuizIds;
                error := None |}
     end)%sweep
    (fun e =>
       ret {| success := false;
              message := "Failed to clean up expired quizzes";
              count := None;
              quizIds := None;
              error := Some (String_ e) |}).

End Sweep.


End Cleanup.

(** ** Vocabulary of the statements *)

Module Props.
Import Js Schema Http Verify Storage Routes Cleanup.

(** Normalization in the words of the specification: trimmed, then
    lowercased.  The handler lowercases first; [trim_toLowerCase] shows
    that the order is immaterial. *)
Definition normalized (s : string) : string := toLowerCase (trim s).

(** The set of the normalized entries of a list. *)
Definition normalizedSet (l : list string) : gset string :=
  list_to_set (map normalized l).

(** A stored answer list whose entries are all strings. *)
Definition strings (l : list string) : JsVal := JArr (map JStr l).

Fixpoint allWhiteSpace (s : string) : bool :=
  match s with
  | EmptyString => true
  | String c r => isWhiteSpace c && allWhiteSpace r
  end.

(** Two strings that differ only in letter case and in surrounding
    white space. *)
Definition sameModuloCaseAndPadding (s s' : string) : Prop :=
  exists l r t l' r' t',
    s = l +:+ t +:+ r /\ s' = l' +:+ t' +:+ r'
    /\ allWhiteSpace l = true /\ allWhiteSpace r = true
    /\ allWhiteSpace l' = true /\ allWhiteSpace r' = true
    /\ toLowerCase t = toLowerCase t'.

(** What the stored correct answers deserialize to as a list of strings,
    if they do. *)
Definition stringList (c : JsonColumn) : option (list string) :=
  match c with
  | ColArray items => allStrings items
  | ColText (Some (JArr items)) => allStrings items
  | ColText _ => None
  end.

(** The string entries of an array that precede its first entry of
    another type. *)
Fixpoint leadingStrings (items : list JsVal) : list string :=
  match items with
  | JStr s :: r => s :: leadingStrings r
  | _ => nil
  end.

(** A string answer that matches a stored string entry ahead of every
    entry of another type. *)
Definition matchesLeadingString (c : JsonColumn) (a : Answer) : bool :=
  match a, decodeCorrectAnswers c with
  | AnswerString s, Ok (JArr items) =>
      existsb (fun x => String.eqb (normalized x) (normalized s))
        (leadingStrings items)
  | _, _ => false
  end.


(** The question that the verify handler selects. *)
Definition questionById (d : Db) (id : Z) : option Question :=
  find (fun q => question_id q =? id) (questions d).

Definition isDigit (c : ascii) : bool := (48 <=? code c) && (code c <=? 57).

Fixpoint allDigits (s : string) : bool :=
  match s with
  | EmptyString => true
  | String c r => isDigit c && allDigits r
  end.

(** A numeric string: one or more decimal digits and nothing else. *)
Definition isNumericString (s : string) : bool :=
  negb (String.eqb s "") && allDigits s.

(** The four quiz read paths with their keys. *)
Inductive ReadRequest :=
| ById (quizIdParam : string)
| ByCode (accessCode : string)
| BySlug (urlSlug : string)
| ByToken (token : string).

Definition readRoute (d : Db) (now : Z) (req : ReadRequest) : Response :=
  match req with
  | ById p => quizByIdRoute d now p
  | ByCode c => quizByCodeRoute d now c
  | BySlug s => quizBySlugRoute d now s
  | ByToken t => quizByTokenRoute d now t
  end.

(** The key of a read request matches a quiz. *)
Definition matches (req : ReadRequest) (q : Quiz) : Prop :=
  match req with
  | ById p => parseInt p = Some (quiz_id q)
  | ByCode c => accessCode q = c
  | BySlug s => urlSlug q = s \/ toLowerCase (urlSlug q) = toLowerCase s
  | ByToken t => dashboardToken q = t
  end.

(** The id of a by-id request is a number. *)
Definition hasNumericId (req : ReadRequest) : Prop :=
  match req with
  | ById p => parseInt p <> None
  | _ => True
  end.

(** The quiz that the handler of a read request selects. *)
Definition lookupQuiz (d : Db) (req : ReadRequest) : option Quiz :=
  match req with
  | ById p =>
      match parseInt p with
      | Some id => getQuiz d id
      | None => None
      end
  | ByCode c => getQuizByAccessCode d c
  | BySlug s =>
      match getQuizByUrlSlug d s with
      | Some q => Some q
      | None =>
          find (fun q => String.eqb (toLowerCase (urlSlug q)) (toLowerCase s))
            (quizzes d)
      end
  | ByToken t => getQuizByDashboardToken d t
  end.

(** The number of questions of a quiz. *)
Definition questionCount (d : Db) (quizId : Z) : Z :=
  Z.of_nat (length (List.filter (fun q => question_quizId q =? quizId)
                                (questions d))).

(** The same submission with another claimed score. *)
Definition withScore (s : Z) (d : InsertQuizAttempt) : InsertQuizAttempt :=
  {| ins_quizId := ins_quizId d;
     ins_userAnswerId := ins_userAnswerId d;
     ins_userName := ins_userName d;
     ins_score := s;
     ins_totalQuestions := ins_totalQuestions d;
     ins_answers := ins_answers d |}.

(** A quiz that a sweep at [now] is to delete. *)
Definition expiredAt (now : Z) (q : Quiz) : Prop := createdAt q < now - sevenDays.

(** No statement against the tables fails. *)
Definition databaseUp (f : Faults) : Prop :=
  selectFault f = None /\ deleteAttemptsFault f = None
  /\ deleteQuestionsFault f = None /\ deleteQuizzesFault f = None.


End Props.

(** ** Sample rows *)

Module Examples.
Import Js Schema Http Verify Storage Routes Cleanup Props.

Definition day : Z := 24 * 60 * 60 * 1000.

Definition question (id quizId : Z) (type_ : string) (correct : JsonColumn) : Question :=
  {| question_id := id;
     question_quizId := quizId;
     text := "Which one?";
     type := type_;
     options := ColText (Some (JArr [JStr "Paris"; JStr "Rome"; JStr "Oslo"]));
     correctAnswers := correct;
     hint := None;
     order := id;
     imageUrl := None |}.

(** A question with two correct answers. *)
Definition capital : Question :=
  question 7 1 "multiple_choice" (ColText (Some (JArr [JStr "Paris"; JStr "Rome"]))).

(** Stored answers that are JSON but hold a number after a string. *)
Definition mixed : Question :=
  question 8 1 "multiple_choice" (ColText (Some (JArr [JStr "paris"; JNum 1]))).

(** Stored answers that are not JSON. *)
Definition garbled : Question :=
  question 9 1 "multiple_choice" (ColText None).

Definition quiz (id created : Z) (code slug token : string) : Quiz :=
  {| quiz_id := id;
     creatorId := 1;
     creatorName := "Ann";
     accessCode := code;
     urlSlug := slug;
     dashboardToken := token;
     createdAt := created |}.

(** Created at day 0 and at day 2; at day 8 the first is eight days old
    and the second six. *)
Definition oldQuiz : Quiz := quiz 12 0 "OLD123" "ann-old" "tok-old".
Definition freshQuiz : Quiz := quiz 13 (2 * day) "NEW123" "ann-new" "tok-new".

Definition attempt (id quizId : Z) : QuizAttempt :=
  {| attempt_id := id;
     attempt_quizId := quizId;
     userAnswerId := 5;
     userName := "Bob";
     score := 1;
     totalQuestions := 1;
     answers := nil;
     completedAt := 3 * day |}.

Definition sampleDb : Db :=
  {| quizzes := [oldQuiz; freshQuiz];
     questions := [capital; mixed; garbled;
                   question 20 12 "multiple_choice" (ColArray [JStr "a"]);
                   question 21 13 "multiple_choice" (ColArray [JStr "b"])];
     quizAttempts := [attempt 1 12; attempt 2 13; attempt 3 12] |}.

Definition answerBody (v : JsVal) : JsVal := JObj [("answer", v)].

(** A quiz with five questions, and a submission that answers two of
    them correctly and claims a score of 999. *)
Definition fiveQuestions : Db :=
  {| quizzes := [quiz 1 0 "FIVE55" "ann-five" "tok-five"];
     questions :=
       map (fun i => question i 1 "multiple_choice" (ColArray [JStr "Paris"]))
           [1; 2; 3; 4; 5];
     quizAttempts := nil |}.

Definition given (questionId : Z) (s : string) : QuestionAnswer :=
  {| qa_questionId := questionId; userAnswer := AnswerString s; isCorrect := Some true |}.

Definition inflated : InsertQuizAttempt :=
  {| ins_quizId := 1;
     ins_userAnswerId := 5;
     ins_userName := "Bob";
     ins_score := 999;
     ins_totalQuestions := 5;
     ins_answers := [given 1 "paris"; given 2 "Rome"; given 3 " PARIS"; given 4 "Oslo"] |}.

(** What the tables hold of that submission. *)
Definition storedAttempt : QuizAttempt :=
  {| attempt_id := 1;
     attempt_quizId := 1;
     userAnswerId := 5;
     userName := "Bob";
     score := 2;
     totalQuestions := 5;
     answers :=
       [ {| qa_questionId := 1; userAnswer := AnswerString "paris"; isCorrect := Some true |};
         {| qa_questionId := 2; userAnswer := AnswerString "Rome"; isCorrect := Some false |};
         {| qa_questionId := 3; userAnswer := AnswerString " PARIS"; isCorrect := Some true |};
         {| qa_questionId := 4; userAnswer := AnswerString "Oslo"; isCorrect := Some false |} ];
     completedAt := 4 * day |}.

Definition afterSubmission : Db :=
  {| quizzes := quizzes fiveQuestions;
     questions := questions fiveQuestions;
     quizAttempts := [storedAttempt] |}.

Definition newQuiz (name : string) : InsertQuiz :=
  {| ins_creatorId := 1;
     ins_creatorName := name;
     ins_accessCode := "ABC123";
     ins_urlSlug := "ann-abc";
     ins_dashboardToken := "tok-abc" |}.

End Examples.

(** ** Partial sweeps *)

Module SweepStages.
Import Js Schema Storage Cleanup Props.

(** The ids that a sweep at [now] collects from the quizzes. *)
Definition expiredIds (now : Z) (d : Db) : list Z :=
  map quiz_id (List.filter (fun q => createdAt q <? now - sevenDays) (quizzes d)).

(** The tables after the first [n] of the three deletes, in the order in
    which the sweeper issues them. *)
Definition afterDeletes (n : nat) (ids : list Z) (d : Db) : Db :=
  {| quizzes :=
       if (3 <=? n)%nat
       then List.filter (fun q => negb (inArray (quiz_id q) ids)) (quizzes d)
       else quizzes d;
     questions :=
       if (2 <=? n)%nat
       then List.filter (fun q => negb (inArray (question_quizId q) ids)) (questions d)
       else questions d;
     quizAttempts :=
       if (1 <=? n)%nat
       then List.filter (fun a => negb (inArray (attempt_quizId a) ids)) (quizAttempts d)
       else quizAttempts d |}.

(** How many of the deletes take effect before the first one that fails. *)
Definition deletesDone (f : Faults) : nat :=
  match deleteAttemptsFault f, deleteQuestionsFault f, deleteQuizzesFault f with
  | Some _, _, _ => 0
  | None, Some _, _ => 1
  | None, None, Some _ => 2
  | None, None, None => 3
  end.

(** Every question and every attempt belongs to a quiz of the table. *)
Definition childrenHaveQuiz (d : Db) : Prop :=
  (forall x, x ∈ questions d -> exists q, q ∈ quizzes d /\ quiz_id q = question_quizId x)
  /\ (forall a, a ∈ quizAttempts d ->
        exists q, q ∈ quizzes d /\ quiz_id q = attempt_quizId a).

(** The world in which a sweep leaves the tables. *)
Definition sweep (f : Faults) (now : Z) (w : World) : World :=
  fst (cleanupExpiredQuizzes f now w).

(** The result object of a sweep, if it returns one. *)
Definition sweepResult (f : Faults) (now : Z) (w : World) : option CleanupResult :=
  match snd (cleanupExpiredQuizzes f now w) with
  | Ok r => Some r
  | Throw _ => None
  end.

End SweepStages.

(** ** The attempt read handlers ([server/routes.ts]) *)

Module AttemptRoutes.
Import Js Schema Http.

Inductive AttemptsBody :=
| Failure (message : string)
| OneAttempt (data : QuizAttempt) (serverTime : Z)
| ManyAttempts (data : list QuizAttempt) (serverTime : Z) (count : Z).

(** A response together with the headers set on it. *)
Record Reply := {
  headers : gmap string string;
  code : Z;
  payload : AttemptsBody
}.

(** The three [res.setHeader] calls with which both handlers start. *)
Definition noCache (h : gmap string string) : gmap string string :=
  <["Expires" := "0"]>
    (<["Pragma" := "no-cache"]>
       (<["Cache-Control" := "no-cache, no-store, must-revalidate"]> h)).

(** Where [x] goes in a sorted list: after the elements that the
    comparator puts before it, and before the rest. *)
Fixpoint insertBy {A} (cmp : A -> A -> Z) (x : A) (l : list A) : list A :=
  match l with
  | nil => [x]
  | y :: r => if 0 <? cmp x y then y :: insertBy cmp x r else x :: l
  end.

(** [Array.prototype.sort(cmp)]: the sort is stable, which for a consistent
    comparator fixes its result; this is the stable insertion sort. *)
Definition sort {A} (cmp : A -> A -> Z) (l : list A) : list A :=
  fold_right (insertBy cmp) nil l.

(** The comparator of the handler: newest first. *)
Definition newestFirst (a b : QuizAttempt) : Z := completedAt b - completedAt a.

Section QuizAttempts.

(** [storage.getQuizAttempts], which is not among the sources: the
    attempts of the quiz, or the error that it throws. *)
Variable getQuizAttempts : Db -> Z -> Exc (list QuizAttempt).

(** [GET /api/quizzes/:quizId/attempts]; [timestamp] is [Date.now()]. *)
Definition quizAttemptsRoute (d : Db) (timestamp : Z) (quizIdParam : string) : Reply :=
  let h := noCache ∅ in
  match parseInt quizIdParam with
  | None => {| headers := h; code := 400; payload := Failure "Invalid quiz ID" |}
  | Some quizId =>
      match getQuizAttempts d quizId with
      | Ok found =>
          let attempts := sort newestFirst found in
          {| headers := h;
             code := 200;
             payload := ManyAttempts attempts timestamp (Z.of_nat (length attempts)) |}
      | Throw _ =>
          {| headers := h;
             code := 500;
             payload := Failure "Failed to fetch quiz attempts" |}
      end
  end.

End QuizAttempts.

(** [GET /api/quiz-attempts/:attemptId]; [timestamp] is [Date.now()], and
    [selectFault] is the error with which the select fails, if it does. *)
Definition attemptByIdRoute (selectFault : option JsError) (d : Db) (timestamp : Z)
    (attemptIdParam : string) : Reply :=
  let h := noCache ∅ in
  match parseInt attemptIdParam with
  | None => {| headers := h; code := 400; payload := Failure "Invalid attempt ID" |}
  | Some attemptId =>
      match selectFault with
      | Some _ =>
          {| headers := h;
             code := 500;
             payload := Failure "Failed to fetch quiz attempt" |}
      | None =>
          match find (fun a => attempt_id a =? attemptId) (quizAttempts d) with
          | None =>
              {| headers := h;
                 code := 404;
                 payload := Failure "Quiz attempt not found" |}
          | Some attempt =>
              {| headers := h; code := 200; payload := OneAttempt attempt timestamp |}
          end
      end
  end.

End AttemptRoutes.

(** ** The quiz form's request ([components/quiz/QuizCreation.tsx]) *)

Module CreateForm.
Import Js Schema.

(** The body that [createQuizMutation] posts to [/api/quizzes], or nothing
    when it throws for a blank creator name.  The id comes from the session
    and the three identifiers from generators that are not among the
    sources. *)
Definition quizRequest (creatorName_ : string) (currentUserId : Z)
    (freshAccessCode freshUrlSlug freshDashboardToken : string)
  : option InsertQuiz :=
  if String.eqb (trim creatorName_) "" then None
  else Some {| ins_creatorId := currentUserId;
               ins_creatorName := trim creatorName_;
               ins_accessCode := freshAccessCode;
               ins_urlSlug := freshUrlSlug;
               ins_dashboardToken := freshDashboardToken |}.

End CreateForm.

(** ** Image upload ([server/routes.ts]) *)

Module Upload.
Import Js.

(** Two characters that a case-insensitive pattern takes for the same. *)
Definition sameIgnoringCase (a b : ascii) : bool :=
  Ascii.eqb (toLowerChar a) (toLowerChar b).

(** The pattern text matches the whole of [s], letter case apart. *)
Fixpoint matchesToEnd (pat s : string) : bool :=
  match pat, s with
  | EmptyString, EmptyString => true
  | String p pr, String c cr => sameIgnoringCase p c && matchesToEnd pr cr
  | _, _ => false
  end.

Definition imageExtensions : list string := ["jpg"; "jpeg"; "png"; "gif"].

(** [originalname.match(/\.(jpg|jpeg|png|gif)$/i)]: the pattern is tried at
    every position of the name. *)
Fixpoint isImageName (originalname : string) : bool :=
  existsb (fun ext => matchesToEnd ("." +:+ ext) originalname) imageExtensions
  || match originalname with
     | EmptyString => false
     | String _ r => isImageName r
     end.

(** The [fileFilter] of the upload: the error it passes on, if any. *)
Definition fileFilter (originalname : string) : Exc unit :=
  if isImageName originalname then Ok tt
  else Throw (Error "Only image files (jpg, jpeg, png, gif) are allowed!").

Inductive UploadBody :=
| UploadMessage (message : string)
| ImageUrl (imageUrl : string).

Record UploadReply := { uploadStatus : Z; uploadBody : UploadBody }.

(** [fs.unlinkSync(path)] on the set of the files that exist: it throws
    when the file is not there, or when the system refuses ([refused]). *)
Definition unlinkSync (refused : bool) (files : gset string) (path : string)
  : gset string * Exc unit :=
  if refused || negb (bool_decide (path ∈ files))
  then (files, Throw (Error "unlink failed"))
  else (files ∖ {[path]}, Ok tt).

Section UploadRoute.

(** [storage.uploadImage], which sends the file to the image store and is
    not among the sources: the secure URL, or the error. *)
Variable uploadImage : string -> Exc string.

(** [POST /api/upload] after the upload middleware has stored the file at
    [req.file.path], if the request had one. *)
Definition uploadRoute (refused : bool) (files : gset string) (file : option string)
  : gset string * UploadReply :=
  match file with
  | None =>
      (files, {| uploadStatus := 400; uploadBody := UploadMessage "No file uploaded" |})
  | Some path =>
      match uploadImage path with
      | Ok secure_url =>
          (fst (unlinkSync refused files path),
           {| uploadStatus := 200; uploadBody := ImageUrl secure_url |})
      | Throw _ =>
          ((if negb (String.eqb path "") && bool_decide (path ∈ files)
            then fst (unlinkSync refused files path)
            else files),
           {| uploadStatus := 500;
              uploadBody := UploadMessage "Failed to upload image" |})
      end
  end.

End UploadRoute.

End Upload.

(** ** The page on which a quiz is answered ([QuizAnswer]) *)

Module QuizPage.
Import Js.

(** Whether [if (v)] takes the branch. *)
Definition truthy (v : JsVal) : bool :=
  match v with
  | JNull => false
  | JBool b => b
  | JNum n => negb (n =? 0)
  | JStr s => negb (String.eqb s "")
  | JArr _ | JObj _ => true
  end.

(** What [response.json()] yields for the reply [res.json({ isCorrect })]
    of the verify handler. *)
Definition isCorrectJson (isCorrect : bool) : JsVal :=
  JObj [("isCorrect", JBool isCorrect)].

(** An entry of [userAnswers]; [isCorrect] holds what the mutation resolved
    to. *)
Record GivenAnswer := {
  questionId : Z;
  userAnswer : string;
  isCorrect : JsVal
}.

Record Page := {
  currentQuestionIndex : Z;
  userAnswers : list GivenAnswer;
  selectedOption : string;
  adRefreshCounter : Z;
  completed : option (list GivenAnswer * Z)
}.

(** The page as it starts with nothing saved. *)
Definition freshPage : Page :=
  {| currentQuestionIndex := 0;
     userAnswers := nil;
     selectedOption := "";
     adRefreshCounter := 0;
     completed := None |}.

Section Handlers.

(** The ids of the questions of the quiz, in order. *)
Variable questions : list Z.

(** [questions[currentQuestionIndex]] *)
Definition currentQuestion (pg : Page) : option Z :=
  if currentQuestionIndex pg <? 0 then None
  else questions !! Z.to_nat (currentQuestionIndex pg).

Definition handleOptionSelect (option : string) (pg : Page) : Page :=
  {| currentQuestionIndex := currentQuestionIndex pg;
     userAnswers := userAnswers pg;
     selectedOption := option;
     adRefreshCounter := adRefreshCounter pg;
     completed := completed pg |}.

(** [handleNext]; [outcome] is what [verifyAnswerMutation.mutateAsync]
    resolves to or rejects with.  [completed] records the call of
    [onComplete]. *)
Definition handleNext (outcome : Exc JsVal) (pg : Page) : Page :=
  if String.eqb (selectedOption pg) "" then pg
  else
    match currentQuestion pg, outcome with
    | None, _ => pg
    | Some _, Throw _ => pg
    | Some id, Ok verdict =>
        let questionAnswer :=
          {| questionId := id;
             userAnswer := selectedOption pg;
             isCorrect := verdict |} in
        let updatedAnswers := (userAnswers pg ++ [questionAnswer])%list in
        if currentQuestionIndex pg =? Z.of_nat (length questions) - 1
        then
          let correctAnswers :=
            Z.of_nat (length (List.filter (fun a => truthy (isCorrect a))
                                updatedAnswers)) in
          let validScore := Z.min correctAnswers (Z.of_nat (length questions)) in
          {| currentQuestionIndex := currentQuestionIndex pg;
             userAnswers := updatedAnswers;
             selectedOption := "";
             adRefreshCounter := adRefreshCounter pg + 1;
             completed := Some (updatedAnswers, validScore) |}
        else
          {| currentQuestionIndex := currentQuestionIndex pg + 1;
             userAnswers := updatedAnswers;
             selectedOption := "";
             adRefreshCounter := adRefreshCounter pg + 1;
             completed := completed pg |}
    end.

(** [handleBack]: drops the last answer and steps back. *)
Definition handleBack (pg : Page) : Page :=
  if 0 <? currentQuestionIndex pg
  then {| currentQuestionIndex := currentQuestionIndex pg - 1;
          userAnswers := removelast (userAnswers pg);
          selectedOption := selectedOption pg;
          adRefreshCounter := adRefreshCounter pg;
          completed := completed pg |}
  else pg.

(** What the user does on the page. *)
Inductive PageEvent :=
| Select (option : string)
| Next (outcome : Exc JsVal)
| Back.

Definition step (pg : Page) (ev : PageEvent) : Page :=
  match ev with
  | Select option => handleOptionSelect option pg
  | Next outcome => handleNext outcome pg
  | Back => handleBack pg
  end.

Definition run (events : list PageEvent) : Page := fold_left step events freshPage.

End Handlers.

(** What holds of the page along every run: the index never passes the
    number of recorded answers, every recorded verdict is taken for true,
    and a score reported is the number of questions. *)
Definition pageInvariant (questions : list Z) (pg : Page) : Prop :=
  0 <= currentQuestionIndex pg <= Z.of_nat (length (userAnswers pg))
  /\ Forall (fun a => truthy (isCorrect a) = true) (userAnswers pg)
  /\ (forall answers score,
        completed pg = Some (answers, score) -> score = Z.of_nat (length questions)).

(** The outcomes that the verify handler can cause: a rejection, or its
    reply object. *)
Definition fromVerifyHandler (ev : PageEvent) : Prop :=
  match ev with
  | Next (Ok v) => exists b, v = isCorrectJson b
  | _ => True
  end.

(** The score that [submitAttemptMutation] posts for a completed quiz. *)
Definition postedScore (score : Z) (questions : list Z) : Z :=
  Z.min score (Z.of_nat (length questions)).

(** [retryDelay] of the quiz queries. *)
Definition retryDelay (attemptIndex : Z) : Z :=
  Z.min (1000 * 2 ^ attemptIndex) 10000.

End QuizPage.

(** ** The quiz form ([client/src/components/quiz/QuizCreation.tsx]) *)

Module QuizForm.
Import Js.

(** [currentQuestion]: the question being typed.  A flag is [None] where
    the array of flags has no entry ([undefined]). *)
Record Draft := {
  text : string;
  imageUrl : string;
  type : string;
  options : list string;
  correctAnswers : list (option bool)
}.

(** An option of a question of the list. *)
Record Choice := {
  choiceText : string;
  choiceIsCorrect : option bool
}.

(** A question of the list: the draft with its options replaced. *)
Record Listed := {
  listedText : string;
  listedImageUrl : string;
  listedType : string;
  listedOptions : list Choice;
  listedCorrectAnswers : list (option bool)
}.

Record Form := {
  questions : list Listed;
  currentQuestion : Draft;
  selectedFile : option string;
  previewUrl : string
}.

Definition emptyDraft : Draft :=
  {| text := "";
     imageUrl := "";
     type := "multiple-choice";
     options := [""; ""; ""; ""];
     correctAnswers := [Some false; Some false; Some false; Some false] |}.

Definition initialForm : Form :=
  {| questions := nil;
     currentQuestion := emptyDraft;
     selectedFile := None;
     previewUrl := "" |}.

Definition MIN_QUESTIONS_REQUIRED : nat := 5.

(** [opt.trim() !== ''] *)
Definition filled (opt : string) : bool := negb (String.eqb (trim opt) "").

(** Whether a flag counts as set. *)
Definition isSet (flag : option bool) : bool :=
  match flag with
  | Some b => b
  | None => false
  end.

Definition withDraft (d : Draft) (f : Form) : Form :=
  {| questions := questions f;
     currentQuestion := d;
     selectedFile := selectedFile f;
     previewUrl := previewUrl f |}.

Definition handleQuestionChange (value : string) (f : Form) : Form :=
  let c := currentQuestion f in
  withDraft {| text := value; imageUrl := imageUrl c; type := type c;
               options := options c; correctAnswers := correctAnswers c |} f.

(** [newOptions[index] = value], called by the field of an option that
    exists. *)
Definition handleOptionChange (index : nat) (value : string) (f : Form) : Form :=
  let c := currentQuestion f in
  withDraft {| text := text c; imageUrl := imageUrl c; type := type c;
               options := <[index := value]> (options c);
               correctAnswers := correctAnswers c |} f.

(** [newCorrectAnswers[index] = !newCorrectAnswers[index]], called by the
    box of an option that exists. *)
Definition handleCorrectAnswerChange (index : nat) (f : Form) : Form :=
  let c := currentQuestion f in
  withDraft {| text := text c; imageUrl := imageUrl c; type := type c;
               options := options c;
               correctAnswers :=
                 alter (fun flag => Some (negb (isSet flag))) index
                   (correctAnswers c) |} f.

Definition addOption (f : Form) : Form :=
  let c := currentQuestion f in
  withDraft {| text := text c; imageUrl := imageUrl c; type := type c;
               options := options c ++ [""];
               correctAnswers := correctAnswers c ++ [Some false] |} f.

(** [filter((_, i) => i !== index)] on both arrays. *)
Definition removeOption (index : nat) (f : Form) : Form :=
  let c := currentQuestion f in
  withDraft {| text := text c; imageUrl := imageUrl c; type := type c;
               options := delete index (options c);
               correctAnswers := delete index (correctAnswers c) |} f.

(** [handleFileChange], with the preview that the reader delivers. *)
Definition handleFileChange (file preview : string) (f : Form) : Form :=
  {| questions := questions f;
     currentQuestion := currentQuestion f;
     selectedFile := Some file;
     previewUrl := preview |}.

(** The button that removes the image. *)
Definition removeImage (f : Form) : Form :=
  {| questions := questions f;
     currentQuestion := currentQuestion f;
     selectedFile := None;
     previewUrl := "" |}.

Definition choice (opt : string) (flag : option bool) : Choice :=
  {| choiceText := opt; choiceIsCorrect := flag |}.

(** The options of the question that [addQuestion] builds: each option
    with the flag at its position, the blank ones left out. *)
Definition validOptions (c : Draft) : list Choice :=
  List.filter (fun option => filled (choiceText option))
    (imap (fun index option =>
             {| choiceText := option;
                choiceIsCorrect := mjoin (correctAnswers c !! index) |})
          (options c)).

(** The condition under which the button that adds the question is
    enabled. *)
Definition canAddQuestion (c : Draft) : bool :=
  negb (String.eqb (trim (text c)) "")
  && (2 <=? length (List.filter filled (options c)))%nat
  && existsb isSet (correctAnswers c).

(** [addQuestion]; [uploaded] is what [uploadImage] returns for the
    selected file: the URL, or the empty string when the upload failed. *)
Definition addQuestion (uploaded : string) (f : Form) : Form :=
  let c := currentQuestion f in
  if String.eqb (trim (text c)) "" then f
  else if (length (List.filter filled (options c)) <? 2)%nat then f
  else if negb (existsb isSet (correctAnswers c)) then f
  else
    let imageUrl_ := match selectedFile f with Some _ => uploaded | None => "" end in
    let newQuestion :=
      {| listedText := text c;
         listedImageUrl := imageUrl_;
         listedType := type c;
         listedOptions := validOptions c;
         listedCorrectAnswers := correctAnswers c |} in
    {| questions := questions f ++ [newQuestion];
       currentQuestion := emptyDraft;
       selectedFile := None;
       previewUrl := "" |}.

(** [editQuestion], called by the button of a question of the list;
    nothing when there is no question at [index]. *)
Definition editQuestion (index : nat) (f : Form) : option Form :=
  match questions f !! index with
  | None => None
  | Some questionToEdit =>
      Some {| questions := delete index (questions f);
              currentQuestion :=
                {| text := listedText questionToEdit;
                   imageUrl := listedImageUrl questionToEdit;
                   type := listedType questionToEdit;
                   options := map choiceText (listedOptions questionToEdit);
                   correctAnswers :=
                     map choiceIsCorrect (listedOptions questionToEdit) |};
              selectedFile := selectedFile f;
              previewUrl :=
                if String.eqb (listedImageUrl questionToEdit) ""
                then previewUrl f
                else listedImageUrl questionToEdit |}
  end.

(** [deleteQuestion]: [splice(index, 1)]. *)
Definition deleteQuestion (index : nat) (f : Form) : Form :=
  {| questions := delete index (questions f);
     currentQuestion := currentQuestion f;
     selectedFile := selectedFile f;
     previewUrl := previewUrl f |}.

(** [handleFinishQuiz]: the quiz that is posted, if any. *)
Definition handleFinishQuiz (username : string) (f : Form)
  : option (string * list Listed) :=
  if (length (questions f) <? MIN_QUESTIONS_REQUIRED)%nat then None
  else Some (username, questions f).

(** What the user can do with the controls that the form shows. *)
Inductive FormEvent :=
| TypeQuestion (value : string)
| TypeOption (index : nat) (value : string)
| ToggleCorrect (index : nat)
| AddOption
| RemoveOption (index : nat)
| ChooseFile (file preview : string)
| RemoveImage
| AddQuestion (uploaded : string)
| EditQuestion (index : nat)
| DeleteQuestion (index : nat).

(** The form after an event.  A field, a box or a button exists per
    option and per question shown; the button that removes an option is
    shown only for more than two options, the one that removes the image
    only with a preview, and the one that adds the question is disabled
    unless [canAddQuestion]. *)
Definition formStep (f : Form) (ev : FormEvent) : Form :=
  let c := currentQuestion f in
  match ev with
  | TypeQuestion value => handleQuestionChange value f
  | TypeOption index value =>
      if (index <? length (options c))%nat then handleOptionChange index value f else f
  | ToggleCorrect index =>
      if (index <? length (options c))%nat then handleCorrectAnswerChange index f else f
  | AddOption => addOption f
  | RemoveOption index =>
      if (index <? length (options c))%nat && (2 <? length (options c))%nat
      then removeOption index f else f
  | ChooseFile file preview => handleFileChange file preview f
  | RemoveImage => if String.eqb (previewUrl f) "" then f else removeImage f
  | AddQuestion uploaded => if canAddQuestion c then addQuestion uploaded f else f
  | EditQuestion index =>
      match editQuestion index f with
      | Some f' => f'
      | None => f
      end
  | DeleteQuestion index =>
      if (index <? length (questions f))%nat then deleteQuestion index f else f
  end.

Definition formRun (events : list FormEvent) : Form :=
  fold_left formStep events initialForm.

(** A question of the list as the form keeps them: at least two options,
    none blank, each with its flag. *)
Definition wellFormed (q : Listed) : Prop :=
  (2 <= length (listedOptions q))%nat
  /\ Forall (fun o => filled (choiceText o) = true
                      /\ exists b, choiceIsCorrect o = Some b)
       (listedOptions q).

(** What the form keeps along every run. *)
Definition formInvariant (f : Form) : Prop :=
  length (correctAnswers (currentQuestion f)) = length (options (currentQuestion f))
  /\ (2 <= length (options (currentQuestion f)))%nat
  /\ Forall (fun flag => exists b, flag = Some b) (correctAnswers (currentQuestion f))
  /\ Forall wellFormed (questions f).

End QuizForm.

(** ** The insert schemas ([shared/schema.ts]) and [POST /api/questions] *)

Module InsertSchemas.
Import Js Schema Http Verify.

(** [insertQuestionSchema]'s output: the columns of a question but its
    id, the two JSON columns as the text that is stored. *)
Record InsertQuestion := {
  ins_quizId : Z;
  ins_text : string;
  ins_type : string;
  ins_options : string;
  ins_correctAnswers : string;
  ins_hint : option string;
  ins_order : Z;
  ins_imageUrl : option string
}.

(** A [notNull] integer column: [z.number()], required. *)
Definition requiredNumber (name : string) (fields : list (string * JsVal)) : Exc Z :=
  match lookupField name fields with
  | Some (JNum n) => Ok n
  | _ => Throw ZodError
  end.

(** A [notNull] text column: [z.string()], required. *)
Definition requiredString (name : string) (fields : list (string * JsVal))
  : Exc string :=
  match lookupField name fields with
  | Some (JStr s) => Ok s
  | _ => Throw ZodError
  end.

(** A text column that may be null: optional and nullable. *)
Definition optionalString (name : string) (fields : list (string * JsVal))
  : Exc (option string) :=
  match lookupField name fields with
  | None => Ok None
  | Some JNull => Ok None
  | Some (JStr s) => Ok (Some s)
  | Some _ => Throw ZodError
  end.

(** [insertQuizSchema.parse]: the columns of [quizzes] without [id] and
    [createdAt]; other keys of the body are dropped. *)
Definition insertQuizSchema (reqBody : JsVal) : Exc InsertQuiz :=
  match reqBody with
  | JObj fields =>
      (creatorId_ <- requiredNumber "creatorId" fields ;;
       creatorName_ <- requiredString "creatorName" fields ;;
       accessCode_ <- requiredString "accessCode" fields ;;
       urlSlug_ <- requiredString "urlSlug" fields ;;
       dashboardToken_ <- requiredString "dashboardToken" fields ;;
       Ok {| ins_creatorId := creatorId_;
             ins_creatorName := creatorName_;
             ins_accessCode := accessCode_;
             ins_urlSlug := urlSlug_;
             ins_dashboardToken := dashboardToken_ |})%exc
  | _ => Throw ZodError
  end.

(** [insertQuestionSchema.parse]: the columns of [questions] without
    [id]. *)
Definition insertQuestionSchema (reqBody : JsVal) : Exc InsertQuestion :=
  match reqBody with
  | JObj fields =>
      (quizId_ <- requiredNumber "quizId" fields ;;
       text_ <- requiredString "text" fields ;;
       type_ <- requiredString "type" fields ;;
       options_ <- requiredString "options" fields ;;
       correctAnswers_ <- requiredString "correctAnswers" fields ;;
       hint_ <- optionalString "hint" fields ;;
       order_ <- requiredNumber "order" fields ;;
       imageUrl_ <- optionalString "imageUrl" fields ;;
       Ok {| ins_quizId := quizId_;
             ins_text := text_;
             ins_type := type_;
             ins_options := options_;
             ins_correctAnswers := correctAnswers_;
             ins_hint := hint_;
             ins_order := order_;
             ins_imageUrl := imageUrl_ |})%exc
  | _ => Throw ZodError
  end.

(** [insertQuizAttemptSchema]'s output: the columns of an attempt but its
    id and [completedAt], the answers as the text that is stored. *)
Record AttemptColumns := {
  col_quizId : Z;
  col_userAnswerId : Z;
  col_userName : string;
  col_score : Z;
  col_totalQuestions : Z;
  col_answers : string
}.

(** [insertQuizAttemptSchema.parse]: the columns of [quiz_attempts] without
    [id] and [completedAt]. *)
Definition insertQuizAttemptSchema (reqBody : JsVal) : Exc AttemptColumns :=
  match reqBody with
  | JObj fields =>
      (quizId_ <- requiredNumber "quizId" fields ;;
       userAnswerId_ <- requiredNumber "userAnswerId" fields ;;
       userName_ <- requiredString "userName" fields ;;
       score_ <- requiredNumber "score" fields ;;
       totalQuestions_ <- requiredNumber "totalQuestions" fields ;;
       answers_ <- requiredString "answers" fields ;;
       Ok {| col_quizId := quizId_;
             col_userAnswerId := userAnswerId_;
             col_userName := userName_;
             col_score := score_;
             col_totalQuestions := totalQuestions_;
             col_answers := answers_ |})%exc
  | _ => Throw ZodError
  end.

(** What [POST /api/questions] sends: the stored question with status 201,
    or an error response. *)
Inductive QuestionResponse :=
| QuestionCreated (question : Question)
| QuestionError (res : Response).

Section CreateQuestion.

(** [storage.createQuestion], which is not among the sources. *)
Variable createQuestion : InsertQuestion -> Exc Question.

(** [POST /api/questions] *)
Definition createQuestionRoute (reqBody : JsVal) : QuestionResponse :=
  match (questionData <- insertQuestionSchema reqBody ;;
         createQuestion questionData)%exc with
  | Ok question => QuestionCreated question
  | Throw ZodError => QuestionError (json 400 (MessageZod "Invalid question data"))
  | Throw _ => QuestionError (json 500 (Message "Failed to create question"))
  end.

End CreateQuestion.

End InsertSchemas.

(** ** The question editor ([src/components/quiz/QuizCreation.tsx]) *)

Module QuestionEditor.
Import Js.

(** A question of the list, as [handleAddQuestion] builds it:
    [correctAnswer] is [None] where [options[correctOption]] is undefined,
    [hint] and [imageUrl] are [None] for null. *)
Record NewQuestion := {
  id : Z;
  quizId : Z;
  question : string;
  type : string;
  options : list string;
  correctAnswer : option string;
  hint : option string;
  order : Z;
  imageUrl : option string
}.

(** The state of the component, with the item [currentEditingImageUrl] of
    the session storage; [editorOptions] is the state variable
    [options]. *)
Record Editor := {
  questionText : string;
  editorOptions : list string;
  correctOption : Z;
  questionImage : option string;
  questionImagePreview : option string;
  questions : list NewQuestion;
  currentQuestionIndex : nat;
  currentEditingImageUrl : option string
}.

(** The state that the effect run at mount leaves. *)
Definition initialEditor : Editor :=
  {| questionText := "";
     editorOptions := [""; ""; ""; ""];
     correctOption := 0;
     questionImage := None;
     questionImagePreview := None;
     questions := nil;
     currentQuestionIndex := 0%nat;
     currentEditingImageUrl := None |}.

(** A string or null taken as a condition. *)
Definition nonEmpty (s : option string) : bool :=
  match s with
  | Some s => negb (String.eqb s "")
  | None => false
  end.

(** [a || b] on strings or null. *)
Definition orElse (a b : option string) : option string :=
  if nonEmpty a then a else b.

(** [!opt.trim()] *)
Definition blank (opt : string) : bool := String.eqb (trim opt) "".

(** [options[correctOption]] *)
Definition optionAt (options_ : list string) (index : Z) : option string :=
  if index <? 0 then None else options_ !! Z.to_nat index.

(** [array.findIndex(p)] *)
Fixpoint findIndex {A : Type} (p : A -> bool) (l : list A) : Z :=
  match l with
  | nil => -1
  | x :: r =>
      if p x then 0
      else let i := findIndex p r in if i <? 0 then -1 else i + 1
  end.

(** [opt === question.correctAnswer]; the questions of the list have a
    string or undefined there, never an array. *)
Definition isAnswer (correctAnswer_ : option string) (opt : string) : bool :=
  match correctAnswer_ with
  | Some c => String.eqb opt c
  | None => false
  end.

(** The preview that [handleRemoveImage] leaves. *)
Definition removedPreview (preview : option string) : option string :=
  if nonEmpty preview then None else preview.

Definition handleRemoveImage (s : Editor) : Editor :=
  {| questionText := questionText s;
     editorOptions := editorOptions s;
     correctOption := correctOption s;
     questionImage := questionImage s;
     questionImagePreview := removedPreview (questionImagePreview s);
     questions := questions s;
     currentQuestionIndex := currentQuestionIndex s;
     currentEditingImageUrl := currentEditingImageUrl s |}.

(** [handleFileChange]: the file of the event, if any, with the object
    URL made for it. *)
Definition handleFileChange (file : option (string * string)) (s : Editor) : Editor :=
  match file with
  | None => s
  | Some (file, objectUrl) =>
      {| questionText := questionText s;
         editorOptions := editorOptions s;
         correctOption := correctOption s;
         questionImage := Some file;
         questionImagePreview := Some objectUrl;
         questions := questions s;
         currentQuestionIndex := currentQuestionIndex s;
         currentEditingImageUrl := currentEditingImageUrl s |}
  end.

(** [handleAddQuestion]; [upload] is the [imageUrl] of the reply to the
    upload of the selected file, or nothing when the upload throws. *)
Definition handleAddQuestion (upload : option string) (s : Editor) : Editor :=
  if blank (questionText s) then s
  else if existsb blank (editorOptions s) then s
  else
    let existingImageUrl := currentEditingImageUrl s in
    let uploaded :=
      match questionImage s with
      | Some _ => option_map Some upload
      | None => Some None
      end in
    match uploaded with
    | None => s
    | Some imageUrl_ =>
        let newQuestion :=
          {| id := Z.of_nat (length (questions s)) + 1;
             quizId := -1;
             question := questionText s;
             type := "multiple-choice";
             options := editorOptions s;
             correctAnswer := optionAt (editorOptions s) (correctOption s);
             hint := None;
             order := Z.of_nat (length (questions s)) + 1;
             imageUrl := orElse (orElse imageUrl_ existingImageUrl) None |} in
        {| questionText := "";
           editorOptions := [""; ""; ""; ""];
           correctOption := 0;
           questionImage := questionImage s;
           questionImagePreview := removedPreview (questionImagePreview s);
           questions := questions s ++ [newQuestion];
           currentQuestionIndex := currentQuestionIndex s;
           currentEditingImageUrl := None |}
    end.

(** [handleEditQuestion], called by the list for one of its questions;
    nothing when there is no question at [index]. *)
Definition handleEditQuestion (index : nat) (s : Editor) : option Editor :=
  match questions s !! index with
  | None => None
  | Some question_ =>
      Some {| questionText := question question_;
              editorOptions := options question_;
              correctOption :=
                findIndex (isAnswer (correctAnswer question_)) (options question_);
              questionImage := questionImage s;
              questionImagePreview :=
                if nonEmpty (imageUrl question_) then imageUrl question_
                else removedPreview (questionImagePreview s);
              questions := delete index (questions s);
              currentQuestionIndex := index;
              currentEditingImageUrl :=
                if nonEmpty (imageUrl question_) then imageUrl question_
                else None |}
  end.

Definition handleDeleteQuestion (index : nat) (s : Editor) : Editor :=
  {| questionText := questionText s;
     editorOptions := editorOptions s;
     correctOption := correctOption s;
     questionImage := questionImage s;
     questionImagePreview := questionImagePreview s;
     questions := delete index (questions s);
     currentQuestionIndex := currentQuestionIndex s;
     currentEditingImageUrl := currentEditingImageUrl s |}.

Definition handlePrevQuestion (s : Editor) : Editor :=
  if (0 <? currentQuestionIndex s)%nat then
    if negb (blank (questionText s))
       || existsb (fun o => negb (blank o)) (editorOptions s)
    then s
    else
      let prevIndex := (currentQuestionIndex s - 1)%nat in
      match questions s !! prevIndex with
      | None => s
      | Some prevQuestion =>
          let correctIndex :=
            findIndex (isAnswer (correctAnswer prevQuestion))
              (options prevQuestion) in
          {| questionText := question prevQuestion;
             editorOptions := options prevQuestion;
             correctOption := if 0 <=? correctIndex then correctIndex else 0;
             questionImage := questionImage s;
             questionImagePreview :=
               if nonEmpty (imageUrl prevQuestion) then imageUrl prevQuestion
               else removedPreview (questionImagePreview s);
             questions := delete prevIndex (questions s);
             currentQuestionIndex := prevIndex;
             currentEditingImageUrl :=
               if nonEmpty (imageUrl prevQuestion) then imageUrl prevQuestion
               else None |}
      end
  else s.

(** What the user can do: type the question, change the options or the
    marked option through the options editor, choose or remove an image,
    and press the buttons. *)
Inductive EditorEvent :=
| SetQuestionText (value : string)
| SetOptions (value : list string)
| SetCorrectOption (value : Z)
| FileChange (file : option (string * string))
| RemoveImage
| AddQuestion (upload : option string)
| EditQuestion (index : nat)
| DeleteQuestion (index : nat)
| PrevQuestion.

Definition editorStep (s : Editor) (ev : EditorEvent) : Editor :=
  match ev with
  | SetQuestionText value =>
      {| questionText := value;
         editorOptions := editorOptions s;
         correctOption := correctOption s;
         questionImage := questionImage s;
         questionImagePreview := questionImagePreview s;
         questions := questions s;
         currentQuestionIndex := currentQuestionIndex s;
         currentEditingImageUrl := currentEditingImageUrl s |}
  | SetOptions value =>
      {| questionText := questionText s;
         editorOptions := value;
         correctOption := correctOption s;
         questionImage := questionImage s;
         questionImagePreview := questionImagePreview s;
         questions := questions s;
         currentQuestionIndex := currentQuestionIndex s;
         currentEditingImageUrl := currentEditingImageUrl s |}
  | SetCorrectOption value =>
      {| questionText := questionText s;
         editorOptions := editorOptions s;
         correctOption := value;
         questionImage := questionImage s;
         questionImagePreview := questionImagePreview s;
         questions := questions s;
         currentQuestionIndex := currentQuestionIndex s;
         currentEditingImageUrl := currentEditingImageUrl s |}
  | FileChange file => handleFileChange file s
  | RemoveImage => handleRemoveImage s
  | AddQuestion upload => handleAddQuestion upload s
  | EditQuestion index =>
      match handleEditQuestion index s with
      | Some s' => s'
      | None => s
      end
  | DeleteQuestion index => handleDeleteQuestion index s
  | PrevQuestion => handlePrevQuestion s
  end.

Definition editorRun (events : list EditorEvent) (s : Editor) : Editor :=
  fold_left editorStep events s.

(** A string or null as JSON. *)
Definition nullable (s : option string) : JsVal :=
  match s with
  | Some s => JStr s
  | None => JNull
  end.

(** The body of the request that [createQuizMutation] sends for the
    question at [index]: [{...question, quizId: quiz.id, order: index}];
    a key whose value is undefined is left out. *)
Definition questionPost (quizId_ : Z) (index : nat) (q : NewQuestion) : JsVal :=
  JObj ([("id", JNum (id q));
         ("quizId", JNum quizId_);
         ("question", JStr (question q));
         ("type", JStr (type q));
         ("options", JArr (map JStr (options q)))]
        ++ match correctAnswer q with
           | Some c => [("correctAnswer", JStr c)]
           | None => nil
           end
        ++ [("hint", nullable (hint q));
            ("order", JNum (Z.of_nat index));
            ("imageUrl", nullable (imageUrl q))])%list.

(** [parseInt(sessionStorage.getItem("userId") || "0")], nothing for
    NaN. *)
Definition currentUserId (userId : option string) : option Z :=
  parseInt (default "0" (orElse userId (Some "0"))).

(** The body of the request that [createQuizMutation] sends for the quiz,
    or nothing when it throws for a blank creator name; [userId] is the
    item of the session storage, and the three identifiers come from
    generators that are not among the sources.  A user id that is not a
    number is sent as null. *)
Definition quizPost (creatorName_ : string) (userId : option string)
    (freshAccessCode freshUrlSlug freshDashboardToken : string) : option JsVal :=
  if blank creatorName_ then None
  else
    Some (JObj [("creatorId", match currentUserId userId with
                              | Some n => JNum n
                              | None => JNull
                              end);
                ("creatorName", JStr (trim creatorName_));
                ("accessCode", JStr freshAccessCode);
                ("urlSlug", JStr freshUrlSlug);
                ("dashboardToken", JStr freshDashboardToken)]).

End QuestionEditor.

(** ** What the quiz form posts ([client/src/components/quiz/QuizCreation.tsx]) *)

Module FormPost.
Import Js QuizForm.

(** A flag in an array: undefined is written as null. *)
Definition flagJson (flag : option bool) : JsVal :=
  match flag with
  | Some b => JBool b
  | None => JNull
  end.

(** An option of a question: a key whose value is undefined is left
    out. *)
Definition choiceJson (c : Choice) : JsVal :=
  JObj (("text", JStr (choiceText c))
        :: match choiceIsCorrect c with
           | Some b => [("isCorrect", JBool b)]
           | None => nil
           end).

Definition listedJson (q : Listed) : JsVal :=
  JObj [("text", JStr (listedText q));
        ("imageUrl", JStr (listedImageUrl q));
        ("type", JStr (listedType q));
        ("options", JArr (map choiceJson (listedOptions q)));
        ("correctAnswers", JArr (map flagJson (listedCorrectAnswers q)))].

(** The body that [handleFinishQuiz] hands to [createQuizMutation]:
    [{ creatorName: username, questions }]. *)
Definition quizData (username : string) (questions_ : list Listed) : JsVal :=
  JObj [("creatorName", JStr username);
        ("questions", JArr (map listedJson questions_))].

End FormPost.

(** ** What the quiz page posts ([src/pages/ShareQuizPage.tsx]) *)

Module AttemptPost.
Import Js QuizPage.

(** [n.toString()] for a number that [parseInt] returned; nothing stands
    for NaN. *)
Definition toString (n : option Z) : string :=
  match n with
  | Some n => pretty n
  | None => "NaN"
  end.

(** [{...answer, questionId: answer.questionId.toString()}] *)
Definition answerJson (answer : GivenAnswer) : JsVal :=
  JObj [("questionId", JStr (toString (Some (questionId answer))));
        ("userAnswer", JStr (userAnswer answer));
        ("isCorrect", isCorrect answer)].

(** The body that [submitAttemptMutation] posts for what
    [handleQuizComplete] hands it; [quizId] is [quiz?.id], left out of the
    body when undefined, and [userId] is the number parsed from the
    session. *)
Definition attemptPost (quizId : option Z) (userId : option Z) (userName : string)
    (questions : list Z) (answers : list GivenAnswer) (score : Z) : JsVal :=
  JObj (match quizId with
        | Some n => [("quizId", JNum n)]
        | None => nil
        end
        ++ [("userAnswerId", JStr (toString userId));
            ("userName", JStr userName);
            ("score", JNum (postedScore score questions));
            ("totalQuestions", JNum (Z.of_nat (length questions)));
            ("answers", JArr (map answerJson answers))])%list.

End AttemptPost.

(** ** More sample rows *)

Module Samples.
Import Js Schema Storage Cleanup Props Examples SweepStages.

(** Tables in which every question and attempt has its quiz: the quiz of
    day 0 with a question and two attempts, that of day 2 with a question
    and an attempt. *)
Definition tidyDb : Db :=
  {| quizzes := [oldQuiz; freshQuiz];
     questions := [question 20 12 "multiple_choice" (ColArray [JStr "a"]);
                   question 21 13 "multiple_choice" (ColArray [JStr "b"])];
     quizAttempts := [attempt 1 12; attempt 2 13; attempt 3 12] |}.

Definition tidyWorld : World := {| db := tidyDb; issued := nil |}.

(** Three attempts at a quiz, the first and the last completed at the same
    time. *)
Definition attemptAt (id completed : Z) : QuizAttempt :=
  {| attempt_id := id;
     attempt_quizId := 12;
     userAnswerId := 5;
     userName := "Bob";
     score := 1;
     totalQuestions := 1;
     answers := nil;
     completedAt := completed |}.

Definition threeAttempts : Db :=
  {| quizzes := [oldQuiz];
     questions := nil;
     quizAttempts := [attemptAt 1 (3 * day); attemptAt 2 (4 * day);
                      attemptAt 3 (3 * day)] |}.

(** A storage layer that returns the attempts of the quiz in table
    order. *)
Definition attemptsInTableOrder (d : Db) (quizId : Z) : Exc (list QuizAttempt) :=
  Ok (List.filter (fun a => attempt_quizId a =? quizId) (quizAttempts d)).

(** Two questions answered, both wrongly by the verdict of the handler. *)
Definition allWrong : list QuizPage.PageEvent :=
  [QuizPage.Select "Rome"; QuizPage.Next (Ok (QuizPage.isCorrectJson false));
   QuizPage.Select "Oslo"; QuizPage.Next (Ok (QuizPage.isCorrectJson false))].

Definition wrongAnswers : list QuizPage.GivenAnswer :=
  [ {| QuizPage.questionId := 7; QuizPage.userAnswer := "Rome";
       QuizPage.isCorrect := QuizPage.isCorrectJson false |};
    {| QuizPage.questionId := 8; QuizPage.userAnswer := "Oslo";
       QuizPage.isCorrect := QuizPage.isCorrectJson false |} ].

(** The form with a question typed in: two of its four options are left
    blank and the first one is marked as correct; a file is selected. *)
Definition typedForm : QuizForm.Form :=
  {| QuizForm.questions := nil;
     QuizForm.currentQuestion :=
       {| QuizForm.text := "Where was I born?";
          QuizForm.imageUrl := "";
          QuizForm.type := "multiple-choice";
          QuizForm.options := ["Paris"; ""; "Rome"; " "];
          QuizForm.correctAnswers :=
            [Some true; Some false; Some false; Some false] |};
     QuizForm.selectedFile := Some "home.png";
     QuizForm.previewUrl := "data:image/png;base64,AAAA" |}.

(** The editor with a question typed in: two options have the same text,
    and the second of them is the marked one. *)
Definition typedEditor : QuestionEditor.Editor :=
  {| QuestionEditor.questionText := "Which city do I like best?";
     QuestionEditor.editorOptions := ["Rome"; "Oslo"; "Rome"; "Lima"];
     QuestionEditor.correctOption := 2;
     QuestionEditor.questionImage := None;
     QuestionEditor.questionImagePreview := None;
     QuestionEditor.questions := nil;
     QuestionEditor.currentQuestionIndex := 0%nat;
     QuestionEditor.currentEditingImageUrl := None |}.

(** The image is removed again, and a question is typed. *)
Definition removeThenType : list QuestionEditor.EditorEvent :=
  [QuestionEditor.RemoveImage;
   QuestionEditor.SetQuestionText "Which city do I like best?";
   QuestionEditor.SetOptions ["Rome"; "Oslo"; "Lima"; "Bern"];
   QuestionEditor.SetCorrectOption 1].

(** The delete of the questions fails. *)
Definition questionsDown : Faults :=
  {| selectFault := None;
     imagesFault := None;
     deleteAttemptsFault := None;
     deleteQuestionsFault := Some (Error "database is locked");
     deleteQuizzesFault := None |}.

End Samples.

(** ** Strings *)

Import Js Schema Http Verify Storage Routes Cleanup Props Examples.

Ltac each_char c := destruct c as [[] [] [] [] [] [] [] []]; vm_compute; try reflexivity.

Lemma isWhiteSpace_toLowerChar c : isWhiteSpace (toLowerChar c) = isWhiteSpace c.
Proof. each_char c. Qed.

Lemma toLowerChar_idem c : toLowerChar (toLowerChar c) = toLowerChar c.
Proof. each_char c. Qed.

Lemma toLowerCase_idem s : toLowerCase (toLowerCase s) = toLowerCase s.
Proof. induction s as [|c r IH]; simpl; [reflexivity|]. now rewrite toLowerChar_idem, IH. Qed.

Lemma toLowerCase_app s t : toLowerCase (s +:+ t) = toLowerCase s +:+ toLowerCase t.
Proof. induction s as [|c r IH]; simpl; [reflexivity|]. now rewrite IH. Qed.

Lemma trimStart_toLowerCase s : trimStart (toLowerCase s) = toLowerCase (trimStart s).
Proof.
  induction s as [|c r IH]; simpl; [reflexivity|].
  rewrite isWhiteSpace_toLowerChar. destruct (isWhiteSpace c); [exact IH | reflexivity].
Qed.

Lemma trimEnd_toLowerCase s : trimEnd (toLowerCase s) = toLowerCase (trimEnd s).
Proof.
  induction s as [|c r IH]; simpl; [reflexivity|].
  rewrite IH, isWhiteSpace_toLowerChar.
  destruct (trimEnd r); simpl; [destruct (isWhiteSpace c)|]; reflexivity.
Qed.

Lemma trim_toLowerCase s : trim (toLowerCase s) = toLowerCase (trim s).
Proof. unfold trim. now rewrite trimStart_toLowerCase, trimEnd_toLowerCase. Qed.

Lemma trimStart_blank l s : allWhiteSpace l = true -> trimStart (l +:+ s) = trimStart s.
Proof.
  induction l as [|c r IH]; simpl; [reflexivity|].
  intros [Hc Hr]%andb_true_iff. rewrite Hc. auto.
Qed.

Lemma trimEnd_blank r : allWhiteSpace r = true -> trimEnd r = "".
Proof.
  induction r as [|c r IH]; simpl; [reflexivity|].
  intros [Hc Hr]%andb_true_iff. now rewrite IH, Hc.
Qed.

Lemma trimEnd_app_blank s r : allWhiteSpace r = true -> trimEnd (s +:+ r) = trimEnd s.
Proof.
  intros Hr. induction s as [|c t IH]; simpl.
  - now apply trimEnd_blank.
  - now rewrite IH.
Qed.

Lemma allWhiteSpace_app s t :
  allWhiteSpace (s +:+ t) = allWhiteSpace s && allWhiteSpace t.
Proof. induction s as [|c r IH]; simpl; [reflexivity|]. now rewrite IH, andb_assoc. Qed.

Lemma trimStart_app s r :
  allWhiteSpace s = false -> trimStart (s +:+ r) = trimStart s +:+ r.
Proof.
  induction s as [|c t IH]; simpl; [discriminate|].
  destruct (isWhiteSpace c); simpl; [exact IH | reflexivity].
Qed.

Lemma trimStart_all_blank s : allWhiteSpace s = true -> trimStart s = "".
Proof.
  induction s as [|c r IH]; simpl; [reflexivity|].
  intros [Hc Hr]%andb_true_iff. rewrite Hc. auto.
Qed.

(** Surrounding white space does not survive [trim]. *)
Lemma trim_padding l t r :
  allWhiteSpace l = true -> allWhiteSpace r = true -> trim (l +:+ t +:+ r) = trim t.
Proof.
  intros Hl Hr. unfold trim. rewrite trimStart_blank by assumption.
  destruct (allWhiteSpace t) eqn:Ht.
  - rewrite (trimStart_all_blank t Ht), trimStart_all_blank; [reflexivity|].
    now rewrite allWhiteSpace_app, Ht, Hr.
  - rewrite trimStart_app by assumption. now apply trimEnd_app_blank.
Qed.

Lemma sameModuloCaseAndPadding_normalized s s' :
  sameModuloCaseAndPadding s s' -> trim (toLowerCase s) = trim (toLowerCase s').
Proof.
  intros (l & r & t & l' & r' & t' & -> & -> & Hl & Hr & Hl' & Hr' & Ht).
  rewrite !trim_toLowerCase, !trim_padding by assumption.
  now rewrite <- !trim_toLowerCase, Ht.
Qed.

(** ** The verifier on well-formed stored answers *)

Lemma mapExc_lowerTrim_strings l :
  mapExc lowerTrim (map JStr l) = Ok (map normalized l).
Proof.
  induction l as [|s r IH]; simpl; [reflexivity|].
  rewrite IH. simpl. unfold normalized. now rewrite trim_toLowerCase.
Qed.

Lemma map_lowerTrim_normalized l :
  map (fun ans => trim (toLowerCase ans)) l = map normalized l.
Proof.
  apply map_ext. intros s. unfold normalized. apply trim_toLowerCase.
Qed.

(** The size test together with the inclusion test decides set equality. *)
Lemma size_and_inclusion (U C : gset string) :
  bool_decide (size U = size C)
  && forallb (fun ans => bool_decide (ans ∈ C)) (elements U)
  = bool_decide (U = C).
Proof.
  destruct (decide (U = C)) as [->|Hne].
  - rewrite !bool_decide_eq_true_2 by reflexivity. simpl.
    apply forallb_forall. intros x Hx. apply bool_decide_eq_true_2.
    now apply elem_of_elements, list_elem_of_In.
  - rewrite (bool_decide_eq_false_2 (U = C)) by assumption.
    apply not_true_is_false. intros [Hsize Hall]%andb_true_iff.
    apply Hne. apply bool_decide_eq_true_1 in Hsize.
    apply set_subseteq_size_eq; [|lia].
    intros x Hx. rewrite forallb_forall in Hall.
    apply elem_of_elements, list_elem_of_In, Hall in Hx.
    now apply bool_decide_eq_true_1 in Hx.
Qed.

Lemma verifyAnswer_array correct cand :
  verifyAnswer (strings correct) (AnswerArray cand)
  = Ok (bool_decide (normalizedSet cand = normalizedSet correct)).
Proof.
  unfold verifyAnswer, strings. simpl.
  rewrite mapExc_lowerTrim_strings. simpl.
  rewrite map_lowerTrim_normalized. unfold newSet.
  now rewrite size_and_inclusion.
Qed.

Lemma someExc_strings (cand : string) l :
  someExc (fun correct =>
             bindExc (lowerTrim correct) (fun c =>
             Ok (String.eqb c (trim (toLowerCase cand)))))
          (map JStr l)
  = Ok (existsb (fun c => String.eqb (normalized c) (normalized cand)) l).
Proof.
  induction l as [|s r IH]; simpl; [reflexivity|].
  unfold normalized at 1 2. rewrite <- !trim_toLowerCase.
  destruct (String.eqb _ _); simpl; [reflexivity | exact IH].
Qed.

Lemma verifyAnswer_string correct cand :
  verifyAnswer (strings correct) (AnswerString cand)
  = Ok (existsb (fun c => String.eqb (normalized c) (normalized cand)) correct).
Proof. unfold verifyAnswer, strings. simpl. apply someExc_strings. Qed.

(** C2: an array answer is judged correct exactly when its normalized
    (trimmed, lowercased) set equals the normalized set of the correct
    answers; with correct answers A and B, the answer A alone and the answer
    A, B, C are incorrect, and B, A is correct. *)
Theorem multi_answer_is_set_equality (correct cand : list string) :
  verifyAnswer (strings correct) (AnswerArray cand)
  = Ok (bool_decide (normalizedSet cand = normalizedSet correct))
  /\ verifyAnswer (strings ["A"; "B"]) (AnswerArray ["A"]) = Ok false
  /\ verifyAnswer (strings ["A"; "B"]) (AnswerArray ["A"; "B"; "C"]) = Ok false
  /\ verifyAnswer (strings ["A"; "B"]) (AnswerArray ["B"; "A"]) = Ok true.
Proof.
  split; [apply verifyAnswer_array|].
  repeat split; vm_compute; reflexivity.
Qed.

Lemma existsb_normalized correct cand :
  existsb (fun c => String.eqb (normalized c) (normalized cand)) correct = true
  <-> exists c, c ∈ correct /\ normalized c = normalized cand.
Proof.
  rewrite existsb_exists. split.
  - intros (c & Hin & Heq). exists c. split; [now apply list_elem_of_In|].
    now apply String.eqb_eq.
  - intros (c & Hin & Heq). exists c. split; [now apply list_elem_of_In|].
    now apply String.eqb_eq.
Qed.

Lemma existsb_normalized_ext correct correct' cand cand' :
  trim (toLowerCase cand) = trim (toLowerCase cand') ->
  Forall2 (fun c c' => trim (toLowerCase c) = trim (toLowerCase c')) correct correct' ->
  existsb (fun c => String.eqb (normalized c) (normalized cand)) correct
  = existsb (fun c => String.eqb (normalized c) (normalized cand')) correct'.
Proof.
  intros Hc Hall.
  induction Hall as [|c c' r r' Hcc' _ IH]; simpl; [reflexivity|].
  f_equal; [|exact IH].
  unfold normalized. rewrite <- !trim_toLowerCase. now rewrite Hcc', Hc.
Qed.

(** C3: a string answer is judged correct exactly when its normalized form
    equals the normalized form of some correct answer, and the verdict is
    the same for answers, and for stored correct answers, that differ only
    in letter case and surrounding white space. *)
Theorem single_answer_is_any_match
    (correct correct' : list string) (cand cand' : string) :
  sameModuloCaseAndPadding cand cand' ->
  Forall2 sameModuloCaseAndPadding correct correct' ->
  verifyAnswer (strings correct) (AnswerString cand)
  = verifyAnswer (strings correct') (AnswerString cand')
  /\ exists b, verifyAnswer (strings correct) (AnswerString cand) = Ok b
       /\ (b = true <-> exists c, c ∈ correct /\ normalized c = normalized cand).
Proof.
  intros Hcand Hcorrect. rewrite !verifyAnswer_string. split.
  - f_equal. apply existsb_normalized_ext.
    + now apply sameModuloCaseAndPadding_normalized.
    + eapply Forall2_impl; [exact Hcorrect|].
      intros c c'. apply sameModuloCaseAndPadding_normalized.
  - eexists. split; [reflexivity|]. apply existsb_normalized.
Qed.

Lemma single_answer_is_any_match_witness :
  verifyAnswer (strings ["Paris"]) (AnswerString "Paris ")
  = verifyAnswer (strings ["Paris"]) (AnswerString "paris")
  /\ exists b, verifyAnswer (strings ["Paris"]) (AnswerString "Paris ") = Ok b
       /\ (b = true <-> exists c, c ∈ ["Paris"] /\ normalized c = normalized "Paris ").
Proof.
  apply (single_answer_is_any_match ["Paris"] ["Paris"] "Paris " "paris").
  - exists "", " ", "Paris", "", "", "paris". repeat split; reflexivity.
  - constructor; [|constructor].
    exists "", "", "Paris", "", "", "Paris". repeat split; reflexivity.
Defined.

(** ** The verify handler *)







(** ** Stored answers that are not a list of strings *)

Lemma mapExc_lowerTrim_malformed items :
  allStrings items = None ->
  mapExc lowerTrim items = Throw (TypeError "correct.toLowerCase is not a function").
Proof.
  induction items as [|v r IH]; simpl; [discriminate|].
  destruct v; try reflexivity.
  destruct (allStrings r); simpl; [discriminate|].
  intros _. now rewrite IH.
Qed.

Lemma someExc_malformed (cand : string) items :
  allStrings items = None ->
  someExc (fun correct =>
             bindExc (lowerTrim correct) (fun c =>
             Ok (String.eqb c (trim (toLowerCase cand)))))
          items
  = if existsb (fun x => String.eqb (normalized x) (normalized cand))
         (leadingStrings items)
    then Ok true
    else Throw (TypeError "correct.toLowerCase is not a function").
Proof.
  induction items as [|v r IH]; simpl; [discriminate|].
  destruct v; try reflexivity.
  destruct (allStrings r); simpl; [discriminate|].
  intros _. unfold normalized at 1 2. rewrite <- !trim_toLowerCase.
  destruct (String.eqb _ _); simpl; [reflexivity | now apply IH].
Qed.

Lemma malformed_outcome (c : JsonColumn) (a : Answer) :
  stringList c = None ->
  exists e, e <> ZodError /\
    bindExc (decodeCorrectAnswers c) (fun correct =>
    bindExc (verifyAnswer correct a) (fun isCorrect =>
    Ok (json 200 (IsCorrect isCorrect))))
    = if matchesLeadingString c a
      then Ok (json 200 (IsCorrect true))
      else Throw e.
Proof.
  intros H. unfold matchesLeadingString.
  assert (Hitems : forall items, allStrings items = None ->
    exists e, e <> ZodError /\
      bindExc (verifyAnswer (JArr items) a) (fun isCorrect =>
        Ok (json 200 (IsCorrect isCorrect)))
      = if match a with
           | AnswerString s =>
               existsb (fun x => String.eqb (normalized x) (normalized s))
                 (leadingStrings items)
           | AnswerArray _ => false
           end
        then Ok (json 200 (IsCorrect true))
        else Throw e).
  { intros items Hi. eexists. split; [|destruct a as [s|l]].
    2: { cbn [verifyAnswer arrayItems bindExc].
         rewrite (someExc_malformed s items Hi).
         destruct (existsb _ _); reflexivity. }
    2: { cbn [verifyAnswer arrayItems bindExc].
         now rewrite (mapExc_lowerTrim_malformed items Hi). }
    discriminate. }
  destruct c as [items|[v|]]; cbn [decodeCorrectAnswers JSON_parse bindExc].
  - now apply Hitems.
  - destruct v; try (now apply Hitems);
      destruct a; (eexists; split; [|reflexivity]; discriminate).
  - destruct a; (eexists; split; [|reflexivity]; discriminate).
Qed.

(** C6, as the handler has it: when the stored correct answers do not
    deserialize as a list of strings, the response is the 500 failure,
    unless a string answer matches a stored string entry that precedes
    every entry of another type, in which case it is 200 with
    [isCorrect: true]; it is never [isCorrect: false].  In particular the
    response is the 500 failure whenever the stored text is not JSON and
    whenever the answer is an array. *)
Theorem malformed_answers_never_count_as_incorrect
    (d : Db) (p : string) (id : Z) (reqBody : JsVal) (answer : Answer)
    (question : Question) :
  parseInt p = Some id ->
  parseAnswerBody reqBody = Ok answer ->
  questionById d id = Some question ->
  stringList (correctAnswers question) = None ->
  verifyRoute d p reqBody
  = (if matchesLeadingString (correctAnswers question) answer
     then json 200 (IsCorrect true)
     else json 500 (Message "Failed to verify answer"))
  /\ verifyRoute d p reqBody <> json 200 (IsCorrect false)
  /\ (correctAnswers question = ColText None ->
      verifyRoute d p reqBody = json 500 (Message "Failed to verify answer"))
  /\ ((exists l, answer = AnswerArray l) ->
      verifyRoute d p reqBody = json 500 (Message "Failed to verify answer")).
Proof.
  intros Hp Hb Hq Hc. unfold questionById in Hq.
  assert (Hres : verifyRoute d p reqBody
    = (if matchesLeadingString (correctAnswers question) answer
       then json 200 (IsCorrect true)
       else json 500 (Message "Failed to verify answer"))).
  { unfold verifyRoute. rewrite Hp, Hb. cbn [bindExc]. rewrite Hq.
    destruct (malformed_outcome _ answer Hc) as (e & He & ->).
    destruct (matchesLeadingString _ _); [reflexivity|].
    destruct e; [contradiction| | |]; reflexivity. }
  rewrite Hres. repeat split.
  - destruct (matchesLeadingString _ _); discriminate.
  - intros E. unfold matchesLeadingString. rewrite E.
    destruct answer; reflexivity.
  - intros [l ->]. reflexivity.
Qed.

Lemma malformed_answers_never_count_as_incorrect_witness :
  verifyRoute sampleDb "9" (answerBody (JStr "paris"))
  = json 500 (Message "Failed to verify answer")
  /\ verifyRoute sampleDb "8" (answerBody (JStr "Paris "))
     = json 200 (IsCorrect true)
  /\ verifyRoute sampleDb "8" (answerBody (JStr "rome"))
     = json 500 (Message "Failed to verify answer").
Proof.
  split; [|split].
  - exact (proj1 (malformed_answers_never_count_as_incorrect sampleDb "9" 9
             (answerBody (JStr "paris")) (AnswerString "paris") garbled
             eq_refl eq_refl eq_refl eq_refl)).
  - exact (proj1 (malformed_answers_never_count_as_incorrect sampleDb "8" 8
             (answerBody (JStr "Paris ")) (AnswerString "Paris ") mixed
             eq_refl eq_refl eq_refl eq_refl)).
  - exact (proj1 (malformed_answers_never_count_as_incorrect sampleDb "8" 8
             (answerBody (JStr "rome")) (AnswerString "rome") mixed
             eq_refl eq_refl eq_refl eq_refl)).
Defined.

(** The stored answers of question 8 are not a list of strings, and yet the
    matching answer is accepted with status 200: no 500 is surfaced. *)
Lemma mixed_array_accepts_early_match :
  stringList (correctAnswers mixed) = None
  /\ questionById sampleDb 8 = Some mixed
  /\ verifyRoute sampleDb "8" (answerBody (JStr "paris")) = json 200 (IsCorrect true)
  /\ status (verifyRoute sampleDb "8" (answerBody (JStr "paris"))) <> 500.
Proof. repeat split; vm_compute; congruence. Qed.

(** ** Quiz ids in the path *)

Lemma digitsPrefix_some radix a s : digitsPrefix radix (Some a) s <> None.
Proof.
  revert a. induction s as [|c r IH]; simpl; intros a; [discriminate|].
  destruct (digitValue radix c); [apply IH | discriminate].
Qed.

Lemma parseInt_digit_first c r :
  isDigit c = true -> allDigits r = true -> parseInt (String c r) <> None.
Proof.
  intros Hc Hr.
  assert (Hgo : forall v s, match digitsPrefix 10 (Some v) s with
                            | Some n => Some (1 * n)
                            | None => None
                            end <> (None : option Z)).
  { intros v s. pose proof (digitsPrefix_some 10 v s).
    destruct (digitsPrefix 10 (Some v) s); [discriminate | contradiction]. }
  destruct c as [[] [] [] [] [] [] [] []]; try discriminate Hc;
    try (apply Hgo).
  destruct r as [|c2 r2]; [discriminate|].
  simpl in Hr. apply andb_true_iff in Hr as [Hc2 _].
  destruct c2 as [[] [] [] [] [] [] [] []]; try discriminate Hc2; apply Hgo.
Qed.

Lemma parseInt_numeric p : isNumericString p = true -> parseInt p <> None.
Proof.
  unfold isNumericString. destruct p as [|c r]; [discriminate|]. simpl.
  intros [Hc Hr]%andb_true_iff. now apply parseInt_digit_first.
Qed.

Lemma parseInt_no_number c r :
  isWhiteSpace c = false -> c <> "+"%char -> c <> "-"%char -> isDigit c = false ->
  parseInt (String c r) = None.
Proof.
  intros Hw Hplus Hminus Hd.
  destruct c as [[] [] [] [] [] [] [] []];
    try discriminate Hw; try discriminate Hd;
    try (exfalso; apply Hplus; reflexivity);
    try (exfalso; apply Hminus; reflexivity);
    reflexivity.
Qed.

Lemma status_sendQuiz now q : status (sendQuiz now q) = 200 \/ status (sendQuiz now q) = 410.
Proof. unfold sendQuiz. destruct (isQuizExpired now q); [right | left]; reflexivity. Qed.

(** C9, as the handler has it: the response is 400 exactly when [parseInt]
    finds no number at the start of the id segment; then the body is the
    invalid-id message.  A numeric string is never refused, a segment that
    starts with anything but white space, a sign or a digit always is, and
    the lookup is made with the number parsed, whose answer is 200, 404 or
    410. *)
Theorem by_id_refuses_what_parseInt_refuses (d : Db) (now : Z) (p : string) :
  (status (quizByIdRoute d now p) = 400 <-> parseInt p = None)
  /\ (parseInt p = None ->
      quizByIdRoute d now p = json 400 (Message "Invalid quiz ID"))
  /\ (forall id, parseInt p = Some id ->
        quizByIdRoute d now p
        = match getQuiz d id with
          | None => notFound
          | Some quiz => sendQuiz now quiz
          end
        /\ (status (quizByIdRoute d now p) = 200
            \/ status (quizByIdRoute d now p) = 404
            \/ status (quizByIdRoute d now p) = 410))
  /\ (isNumericString p = true -> status (quizByIdRoute d now p) <> 400)
  /\ (forall c r, p = String c r ->
        isWhiteSpace c = false -> c <> "+"%char -> c <> "-"%char ->
        isDigit c = false ->
        quizByIdRoute d now p = json 400 (Message "Invalid quiz ID")).
Proof.
  assert (Hsome : forall id, parseInt p = Some id ->
    status (quizByIdRoute d now p) = 200
    \/ status (quizByIdRoute d now p) = 404
    \/ status (quizByIdRoute d now p) = 410).
  { intros id H. unfold quizByIdRoute. rewrite H.
    destruct (getQuiz d id) as [q|]; [|right; left; reflexivity].
    destruct (status_sendQuiz now q) as [E|E]; rewrite E; auto. }
  assert (Hiff : status (quizByIdRoute d now p) = 400 <-> parseInt p = None).
  { split.
    - intros H. destruct (parseInt p) as [id|] eqn:E; [|reflexivity].
      destruct (Hsome id eq_refl) as [H'|[H'|H']]; rewrite H' in H; discriminate.
    - intros H. unfold quizByIdRoute. now rewrite H. }
  split; [exact Hiff|]. split; [|split; [|split]].
  - intros H. unfold quizByIdRoute. now rewrite H.
  - intros id H. split; [|now apply (Hsome id)].
    unfold quizByIdRoute. now rewrite H.
  - intros Hn H400. apply Hiff in H400. now apply (parseInt_numeric p).
  - intros c r -> Hw Hplus Hminus Hd. unfold quizByIdRoute.
    now rewrite parseInt_no_number.
Qed.

Lemma by_id_refuses_what_parseInt_refuses_witness :
  quizByIdRoute sampleDb (3 * day) "abc" = json 400 (Message "Invalid quiz ID")
  /\ status (quizByIdRoute sampleDb (3 * day) "12") <> 400.
Proof.
  destruct (by_id_refuses_what_parseInt_refuses sampleDb (3 * day) "abc")
    as (_ & H & _).
  destruct (by_id_refuses_what_parseInt_refuses sampleDb (3 * day) "12")
    as (_ & _ & _ & H' & _).
  split; [apply H | apply H']; reflexivity.
Defined.

(** The segment 12abc is not a numeric string, and the handler answers it
    with quiz 12 and status 200. *)
Lemma by_id_accepts_numeric_prefix :
  isNumericString "12abc" = false
  /\ quizByIdRoute sampleDb (3 * day) "12abc" = json 200 (QuizJson oldQuiz)
  /\ status (quizByIdRoute sampleDb (3 * day) "12abc") <> 400.
Proof. repeat split; vm_compute; congruence. Qed.

(** ** The four read paths *)

Lemma find_None_iff {A} (f : A -> bool) (l : list A) :
  find f l = None <-> forall x, x ∈ l -> f x = false.
Proof.
  split.
  - intros H x Hx. apply (find_none f l H). now apply list_elem_of_In.
  - induction l as [|y r IH]; simpl; intros H; [reflexivity|].
    rewrite (H y) by constructor. apply IH. intros x Hx. apply H. now constructor.
Qed.

Lemma find_Some_elem {A} (f : A -> bool) (l : list A) x :
  find f l = Some x -> x ∈ l /\ f x = true.
Proof.
  intros H. apply find_some in H as [Hin Hf]. split; [|exact Hf].
  now apply list_elem_of_In.
Qed.

Lemma readRoute_lookupQuiz d now req :
  hasNumericId req ->
  readRoute d now req
  = match lookupQuiz d req with
    | None => notFound
    | Some quiz => sendQuiz now quiz
    end.
Proof.
  destruct req as [p|c|s|t]; simpl; intros H.
  - unfold quizByIdRoute. destruct (parseInt p); [reflexivity | contradiction].
  - reflexivity.
  - unfold quizBySlugRoute. destruct (getQuizByUrlSlug d s); reflexivity.
  - reflexivity.
Qed.

Lemma lookupQuiz_None d req :
  lookupQuiz d req = None <-> forall q, q ∈ quizzes d -> ~ matches req q.
Proof.
  destruct req as [p|c|s|t]; simpl.
  - destruct (parseInt p) as [id|].
    + unfold getQuiz. rewrite find_None_iff. split; intros H q Hq.
      * intros E. inversion E; subst. specialize (H q Hq). lia.
      * apply Z.eqb_neq. intros E. apply (H q Hq). now rewrite E.
    + split; [|reflexivity]. intros _ q _. discriminate.
  - unfold getQuizByAccessCode. rewrite find_None_iff. split; intros H q Hq.
    + intros E. specialize (H q Hq). now apply String.eqb_neq in H.
    + apply String.eqb_neq. exact (H q Hq).
  - unfold getQuizByUrlSlug. split.
    + intros H q Hq [E|E].
      * destruct (find _ _) eqn:F; [discriminate|].
        rewrite find_None_iff in H. specialize (H q Hq).
        apply String.eqb_neq in H. apply H. now rewrite E.
      * destruct (find _ _) eqn:F; [discriminate|].
        rewrite find_None_iff in H. specialize (H q Hq).
        now apply String.eqb_neq in H.
    + intros H.
      assert (F : find (fun q => String.eqb (urlSlug q) s) (quizzes d) = None).
      { apply find_None_iff. intros q Hq. apply String.eqb_neq. intros E.
        apply (H q Hq). now left. }
      rewrite F. apply find_None_iff. intros q Hq. apply String.eqb_neq.
      intros E. apply (H q Hq). now right.
  - unfold getQuizByDashboardToken. rewrite find_None_iff. split; intros H q Hq.
    + intros E. specialize (H q Hq). now apply String.eqb_neq in H.
    + apply String.eqb_neq. exact (H q Hq).
Qed.

Lemma lookupQuiz_Some d req q :
  lookupQuiz d req = Some q -> q ∈ quizzes d /\ matches req q.
Proof.
  destruct req as [p|c|s|t]; simpl.
  - destruct (parseInt p) as [id|]; [|discriminate].
    intros [Hin Hf]%find_Some_elem. split; [exact Hin|].
    apply Z.eqb_eq in Hf. now rewrite Hf.
  - intros [Hin Hf]%find_Some_elem. split; [exact Hin|]. now apply String.eqb_eq.
  - unfold getQuizByUrlSlug. destruct (find _ _) as [q'|] eqn:F.
    + intros E. inversion E; subst. apply find_Some_elem in F as [Hin Hf].
      split; [exact Hin|]. left. now apply String.eqb_eq.
    + intros [Hin Hf]%find_Some_elem. split; [exact Hin|]. right.
      now apply String.eqb_eq.
  - intros [Hin Hf]%find_Some_elem. split; [exact Hin|]. now apply String.eqb_eq.
Qed.

(** C4: on each of the four read paths, a key that matches no quiz is
    answered with 404, and a key whose quiz is older than seven days with
    410, the flag [expired: true] and a message other than that of the 404,
    with the policy text in its detail; a 404 is given only when no quiz
    matches and a 410 only for a quiz that exists and has expired. *)
Theorem read_paths_tell_expired_from_missing (d : Db) (now : Z) (req : ReadRequest) :
  hasNumericId req ->
  ((forall q, q ∈ quizzes d -> ~ matches req q) ->
   readRoute d now req = json 404 (Message "Quiz not found"))
  /\ ((exists q, q ∈ quizzes d /\ matches req q) ->
      (forall q, q ∈ quizzes d -> matches req q -> now > createdAt q + sevenDays) ->
      readRoute d now req
      = json 410
          (Expired "Quiz expired" true
             "This quiz has expired. Quizzes are available for 7 days after creation."))
  /\ (status (readRoute d now req) = 404 ->
      forall q, q ∈ quizzes d -> ~ matches req q)
  /\ (status (readRoute d now req) = 410 ->
      exists q, q ∈ quizzes d /\ matches req q /\ now > createdAt q + sevenDays)
  /\ "Quiz expired" <> "Quiz not found"
  /\ includes "available for 7 days after creation"
       "This quiz has expired. Quizzes are available for 7 days after creation."
     = true.
Proof.
  intros Hid. rewrite (readRoute_lookupQuiz d now req Hid).
  split; [|split; [|split; [|split; [|split]]]].
  - intros H. now rewrite (proj2 (lookupQuiz_None d req) H).
  - intros (q0 & Hq0 & Hm0) Hall.
    destruct (lookupQuiz d req) as [q|] eqn:E.
    + apply lookupQuiz_Some in E as [Hq Hm]. unfold sendQuiz, isQuizExpired.
      specialize (Hall q Hq Hm).
      destruct (Z.ltb_spec (createdAt q + sevenDays) now); [reflexivity | lia].
    + exfalso. exact (proj1 (lookupQuiz_None d req) E q0 Hq0 Hm0).
  - intros H. apply lookupQuiz_None.
    destruct (lookupQuiz d req) as [q|]; [|reflexivity].
    destruct (status_sendQuiz now q) as [E|E]; rewrite E in H; discriminate.
  - intros H. destruct (lookupQuiz d req) as [q|] eqn:E; [|discriminate].
    apply lookupQuiz_Some in E as [Hq Hm]. exists q. split; [exact Hq|].
    split; [exact Hm|]. unfold sendQuiz, isQuizExpired in H.
    destruct (Z.ltb_spec (createdAt q + sevenDays) now); [lia | discriminate].
  - discriminate.
  - vm_compute. reflexivity.
Qed.

Lemma read_paths_tell_expired_from_missing_witness :
  readRoute sampleDb (8 * day) (BySlug "ANN-OLD")
  = json 410
      (Expired "Quiz expired" true
         "This quiz has expired. Quizzes are available for 7 days after creation.")
  /\ readRoute sampleDb (8 * day) (ById "99") = json 404 (Message "Quiz not found").
Proof.
  split.
  - apply (read_paths_tell_expired_from_missing sampleDb (8 * day) (BySlug "ANN-OLD") I).
    + exists oldQuiz. split; [|right; reflexivity]. repeat constructor.
    + intros q Hq [E|E]; apply list_elem_of_In in Hq;
        simpl in Hq; destruct Hq as [<-|[<-|[]]]; try discriminate E;
        vm_compute; reflexivity.
  - assert (Hid : hasNumericId (ById "99")) by (simpl; discriminate).
    apply (read_paths_tell_expired_from_missing sampleDb (8 * day) (ById "99") Hid).
    intros q Hq E; apply list_elem_of_In in Hq;
      simpl in Hq; destruct Hq as [<-|[<-|[]]]; discriminate E.
Defined.

(** ** Creator names *)

Lemma trimEnd_nonblank c r : isWhiteSpace c = false -> trimEnd (String c r) <> "".
Proof.
  intros H. simpl. destruct (trimEnd r); [rewrite H|]; discriminate.
Qed.

Lemma placeholder_not_blank name :
  toLowerCase name = "emydan" -> trim name <> "".
Proof.
  destruct name as [|c r]; simpl; [discriminate|].
  intros H. inversion H as [[Hc Hr]].
  assert (Hw : isWhiteSpace c = false).
  { clear -Hc. destruct c as [[] [] [] [] [] [] [] []]; try reflexivity;
      vm_compute in Hc; discriminate Hc. }
  unfold trim. simpl. rewrite Hw. now apply trimEnd_nonblank.
Qed.

(** C5: a creator name that is empty or only white space is refused with
    status 400 and the code EMPTY_CREATOR_NAME, and a name equal to emydan
    up to letter case with status 400 and the code
    DEFAULT_CREATOR_NAME_USED, which is another code; the tables are left
    as they were in both cases, as they are for a body that the schema
    refuses. *)
Theorem creator_name_is_checked (d : Db) (now : Z) (quizData : InsertQuiz) :
  trim (ins_creatorName quizData) = ""
  \/ toLowerCase (ins_creatorName quizData) = "emydan" ->
  fst (createQuizRoute d now (Ok quizData)) = d
  /\ status (snd (createQuizRoute d now (Ok quizData))) = 400
  /\ (trim (ins_creatorName quizData) = "" ->
      body (snd (createQuizRoute d now (Ok quizData)))
      = MessageCode "Creator name cannot be empty" "EMPTY_CREATOR_NAME")
  /\ (toLowerCase (ins_creatorName quizData) = "emydan" ->
      body (snd (createQuizRoute d now (Ok quizData)))
      = MessageCode "Cannot use default creator name. Please enter your own name."
          "DEFAULT_CREATOR_NAME_USED")
  /\ "DEFAULT_CREATOR_NAME_USED" <> "EMPTY_CREATOR_NAME"
  /\ (forall e, fst (createQuizRoute d now (Throw e)) = d).
Proof.
  intros H.
  assert (Hrefused : forall e, fst (createQuizRoute d now (Throw e)) = d).
  { intros e. destruct e; reflexivity. }
  unfold createQuizRoute.
  destruct (String.eqb_spec (trim (ins_creatorName quizData)) "") as [Ht|Ht].
  - rewrite orb_true_r. simpl. repeat split; try reflexivity; try discriminate;
      try exact Hrefused.
    intros Hp. now apply placeholder_not_blank in Hp.
  - destruct H as [H|H]; [contradiction|].
    assert (Hn : String.eqb (ins_creatorName quizData) "" = false).
    { apply String.eqb_neq. intros E. rewrite E in H. discriminate. }
    rewrite Hn, H. simpl. repeat split; try reflexivity; try discriminate;
      try exact Hrefused.
    intros E. contradiction.
Qed.

Lemma creator_name_is_checked_witness :
  fst (createQuizRoute sampleDb (3 * day) (Ok (newQuiz "EmyDan"))) = sampleDb
  /\ status (snd (createQuizRoute sampleDb (3 * day) (Ok (newQuiz "EmyDan")))) = 400
  /\ fst (createQuizRoute sampleDb (3 * day) (Ok (newQuiz "   "))) = sampleDb.
Proof.
  destruct (creator_name_is_checked sampleDb (3 * day) (newQuiz "EmyDan"))
    as (H1 & H2 & _); [right; reflexivity|].
  destruct (creator_name_is_checked sampleDb (3 * day) (newQuiz "   "))
    as (H3 & _); [left; reflexivity|].
  repeat split; assumption.
Defined.

(** ** Recorded attempts *)

Lemma clamp_bounds hi x : 0 <= hi -> 0 <= clamp 0 hi x <= hi.
Proof. unfold clamp. lia. Qed.

Lemma createQuizAttempt_ignores_score d now claimed sub :
  createQuizAttempt d now (withScore claimed sub) = createQuizAttempt d now sub.
Proof. reflexivity. Qed.

(** C1: the score stored for an attempt recorded through the attempt
    handler is the number of its answers that the verifier accepts, clamped
    to the range from 0 to the number of questions of the quiz; it is the
    same whatever score the submission claims. *)
Theorem stored_score_is_recomputed_and_clamped
    (d d' : Db) (now : Z) (sub : InsertQuizAttempt) (attempt : QuizAttempt) :
  createAttemptRoute d now (Ok sub) = (d', json 201 (AttemptJson attempt)) ->
  quizAttempts d' = (quizAttempts d ++ [attempt])%list
  /\ 0 <= score attempt <= questionCount d (ins_quizId sub)
  /\ (exists verdicts,
         mapExc (verifyStored d (ins_quizId sub)) (ins_answers sub) = Ok verdicts
         /\ score attempt
            = clamp 0 (questionCount d (ins_quizId sub))
                (Z.of_nat (length (List.filter (fun b : bool => b) verdicts))))
  /\ (forall claimed,
         createAttemptRoute d now (Ok (withScore claimed sub))
         = (d', json 201 (AttemptJson attempt))).
Proof.
  intros H.
  assert (Hclaimed : forall claimed,
    createAttemptRoute d now (Ok (withScore claimed sub))
    = createAttemptRoute d now (Ok sub)).
  { intros claimed. unfold createAttemptRoute. cbn [bindExc].
    now rewrite createQuizAttempt_ignores_score. }
  unfold createAttemptRoute in H. cbn [bindExc] in H.
  unfold createQuizAttempt in H.
  destruct (mapExc (verifyStored d (ins_quizId sub)) (ins_answers sub))
    as [e|verdicts] eqn:Hv; cbn [bindExc] in H.
  - destruct e; discriminate H.
  - inversion H; subst; clear H. cbn [quizAttempts score].
    split; [reflexivity|]. split; [|split].
    + apply clamp_bounds. unfold questionCount. lia.
    + exists verdicts. split; reflexivity.
    + intros claimed. rewrite Hclaimed. unfold createAttemptRoute.
      cbn [bindExc]. unfold createQuizAttempt. rewrite Hv. reflexivity.
Qed.

Lemma stored_score_is_recomputed_and_clamped_witness :
  0 <= score storedAttempt <= 5
  /\ createAttemptRoute fiveQuestions (4 * day) (Ok (withScore 5 inflated))
     = (afterSubmission, json 201 (AttemptJson storedAttempt)).
Proof.
  destruct (stored_score_is_recomputed_and_clamped fiveQuestions afterSubmission
              (4 * day) inflated storedAttempt) as (_ & Hrange & _ & Hclaimed).
  - vm_compute. reflexivity.
  - split; [exact Hrange | apply Hclaimed].
Defined.

(** ** The sweep *)

Lemma filter_ext_elem {A} (f g : A -> bool) (l : list A) :
  (forall x, x ∈ l -> f x = g x) -> List.filter f l = List.filter g l.
Proof.
  induction l as [|x r IH]; simpl; intros H; [reflexivity|].
  rewrite (H x) by constructor. rewrite IH; [reflexivity|].
  intros y Hy. apply H. now constructor.
Qed.

Lemma filter_all {A} (l : list A) : List.filter (fun _ => true) l = l.
Proof. induction l as [|x r IH]; simpl; [reflexivity | now rewrite IH]. Qed.

Lemma elem_of_filter_bool {A} (f : A -> bool) (l : list A) x :
  x ∈ List.filter f l <-> x ∈ l /\ f x = true.
Proof. rewrite !list_elem_of_In. apply filter_In. Qed.

Lemma NoDup_map_inj {A B} (f : A -> B) (l : list A) x y :
  NoDup (map f l) -> x ∈ l -> y ∈ l -> f x = f y -> x = y.
Proof.
  induction l as [|z r IH]; simpl; intros Hnd Hx Hy E.
  - inversion Hx.
  - apply NoDup_cons in Hnd as [Hz Hnd].
    apply elem_of_cons in Hx as [->|Hx]; apply elem_of_cons in Hy as [->|Hy].
    + reflexivity.
    + exfalso. apply Hz. rewrite E. apply list_elem_of_In, in_map.
      now apply list_elem_of_In.
    + exfalso. apply Hz. rewrite <- E. apply list_elem_of_In, in_map.
      now apply list_elem_of_In.
    + now apply IH.
Qed.

(** The ids that a sweep at [now] collects. *)
Lemma inArray_expired_ids now (qs : list Quiz) (id : Z) :
  inArray id (map quiz_id (List.filter (fun q => createdAt q <? now - sevenDays) qs))
  = true
  <-> exists q, q ∈ qs /\ expiredAt now q /\ id = quiz_id q.
Proof.
  unfold inArray, expiredAt. rewrite bool_decide_eq_true, list_elem_of_In, in_map_iff.
  split.
  - intros (q & E & Hq). apply filter_In in Hq as [Hq Hlt].
    exists q. split; [now apply list_elem_of_In|]. split; [lia | now symmetry].
  - intros (q & Hq & Hlt & E). exists q. split; [now symmetry|].
    apply filter_In. split; [now apply list_elem_of_In | lia].
Qed.

Lemma sweep_run f now w :
  databaseUp f ->
  cleanupExpiredQuizzes f now w
  = let cutoff := now - sevenDays in
    let expired := List.filter (fun q => createdAt q <? cutoff) (quizzes (db w)) in
    let ids := map quiz_id expired in
    match expired with
    | nil =>
        ({| db := db w; issued := (issued w ++ [SelectExpired cutoff])%list |},
         Ok {| success := true;
               message := "No expired quizzes found to clean up";
               count := Some 0;
               quizIds := None;
               error := None |})
    | _ :: _ =>
        ({| db :=
              {| quizzes :=
                   List.filter (fun q => negb (inArray (quiz_id q) ids))
                     (quizzes (db w));
                 questions :=
                   List.filter (fun q => negb (inArray (question_quizId q) ids))
                     (questions (db w));
                 quizAttempts :=
                   List.filter (fun a => negb (inArray (attempt_quizId a) ids))
                     (quizAttempts (db w)) |};
            issued :=
              (issued w ++ [SelectExpired cutoff; CleanupImages ids;
                            DeleteAttempts ids; DeleteQuestions ids;
                            DeleteQuizzes ids])%list |},
         Ok {| success := true;
               message := "Cleaned up " +:+ pretty (Z.of_nat (length expired))
                          +:+ " expired quizzes";
               count := Some (Z.of_nat (length expired));
               quizIds := Some ids;
               error := None |})
    end.
Proof.
  destruct f as [sf imf daf dqf dzf]. intros (Hs & Ha & Hq & Hz).
  simpl in Hs, Ha, Hq, Hz. subst.
  unfold cleanupExpiredQuizzes, tryCatch, bind, selectExpired, statement,
    getRetentionCutoffDate.
  cbn [selectFault db issued].
  destruct (List.filter _ (quizzes (db w))) as [|q0 r] eqn:E.
  - reflexivity.
  - unfold cleanupOldQuizImages, deleteAttempts, deleteQuestions, deleteQuizzes,
      statement, ret.
    cbn [imagesFault deleteAttemptsFault deleteQuestionsFault deleteQuizzesFault
         db issued quizzes questions quizAttempts].
    destruct imf; cbn [db issued quizzes questions quizAttempts];
      rewrite <- !app_assoc; reflexivity.
Qed.







(** ** Sweeps that fail part of the way *)

Import SweepStages Samples AttemptRoutes CreateForm Upload QuizPage.

(** Whatever fails, a sweep leaves the tables as they are after the deletes
    that took effect. *)
Lemma sweep_stage f now w :
  db (sweep f now w)
  = match selectFault f with
    | Some _ => db w
    | None => afterDeletes (deletesDone f) (expiredIds now (db w)) (db w)
    end.
Proof.
  destruct f as [sf imf daf dqf dzf].
  unfold sweep, cleanupExpiredQuizzes, tryCatch, bind, selectExpired, statement,
    getRetentionCutoffDate, expiredIds, deletesDone.
  cbn [selectFault deleteAttemptsFault deleteQuestionsFault deleteQuizzesFault
       db issued].
  destruct sf as [e|]; [reflexivity|].
  destruct (List.filter _ (quizzes (db w))) as [|q0 r] eqn:E.
  - cbn [fst db map]. destruct (db w) as [qs xs ats].
    unfold afterDeletes, inArray. cbn [quizzes questions quizAttempts].
    assert (Hall : forall {A} (g : A -> Z) (l : list A),
               List.filter (fun x => negb (bool_decide (g x ∈ @nil Z))) l = l).
    { intros A g l. etransitivity; [|apply filter_all].
      apply filter_ext_elem. intros x _.
      rewrite bool_decide_eq_false_2; [reflexivity | apply not_elem_of_nil]. }
    rewrite !Hall. destruct daf, dqf, dzf; reflexivity.
  - unfold cleanupOldQuizImages, deleteAttempts, deleteQuestions, deleteQuizzes,
      statement, ret.
    cbn [imagesFault deleteAttemptsFault deleteQuestionsFault deleteQuizzesFault
         db issued quizzes questions quizAttempts].
    destruct (db w) as [qs xs ats].
    destruct imf, daf, dqf, dzf; reflexivity.
Qed.

Lemma afterDeletes_quiz_kept n ids d q :
  q ∈ quizzes d -> inArray (quiz_id q) ids = false -> q ∈ quizzes (afterDeletes n ids d).
Proof.
  intros Hq Hid. unfold afterDeletes. cbn [quizzes].
  destruct (3 <=? n)%nat; [|exact Hq].
  apply elem_of_filter_bool. split; [exact Hq|]. now rewrite Hid.
Qed.

Lemma afterDeletes_quiz_was n ids d q :
  q ∈ quizzes (afterDeletes n ids d) -> q ∈ quizzes d.
Proof.
  unfold afterDeletes. cbn [quizzes]. destruct (3 <=? n)%nat; [|auto].
  now intros [H _]%elem_of_filter_bool.
Qed.

Lemma afterDeletes_question n ids d x :
  x ∈ questions (afterDeletes n ids d) ->
  x ∈ questions d /\ ((2 <= n)%nat -> inArray (question_quizId x) ids = false).
Proof.
  unfold afterDeletes. cbn [questions].
  destruct (Nat.leb_spec 2 n).
  - intros [H1 H2]%elem_of_filter_bool. split; [exact H1|].
    intros _. now apply negb_true_iff.
  - intros Hx. split; [exact Hx | lia].
Qed.

Lemma afterDeletes_attempt n ids d a :
  a ∈ quizAttempts (afterDeletes n ids d) ->
  a ∈ quizAttempts d /\ ((1 <= n)%nat -> inArray (attempt_quizId a) ids = false).
Proof.
  unfold afterDeletes. cbn [quizAttempts].
  destruct (Nat.leb_spec 1 n).
  - intros [H1 H2]%elem_of_filter_bool. split; [exact H1|].
    intros _. now apply negb_true_iff.
  - intros Hx. split; [exact Hx | lia].
Qed.

Lemma afterDeletes_keeps_references n ids d :
  childrenHaveQuiz d -> childrenHaveQuiz (afterDeletes n ids d).
Proof.
  intros [Hx Ha]. split.
  - intros x [Hin Hid]%afterDeletes_question.
    destruct (Hx x Hin) as (q & Hq & E). exists q. split; [|exact E].
    destruct (Nat.leb_spec 3 n) as [H3|H3].
    + apply afterDeletes_quiz_kept; [exact Hq|]. rewrite E. apply Hid. lia.
    + unfold afterDeletes. cbn [quizzes].
      destruct (Nat.leb_spec 3 n); [lia | exact Hq].
  - intros a [Hin Hid]%afterDeletes_attempt.
    destruct (Ha a Hin) as (q & Hq & E). exists q. split; [|exact E].
    destruct (Nat.leb_spec 3 n) as [H3|H3].
    + apply afterDeletes_quiz_kept; [exact Hq|]. rewrite E. apply Hid. lia.
    + unfold afterDeletes. cbn [quizzes].
      destruct (Nat.leb_spec 3 n); [lia | exact Hq].
Qed.

(** X1: whichever statements of a sweep fail, no question and no attempt is
    left without its quiz: the children are deleted before the quizzes, so
    tables in which every child has its quiz stay so. *)
Theorem sweep_never_orphans_children (f : Faults) (now : Z) (w : World) :
  childrenHaveQuiz (db w) -> childrenHaveQuiz (db (sweep f now w)).
Proof.
  intros H. rewrite sweep_stage. destruct (selectFault f); [exact H|].
  now apply afterDeletes_keeps_references.
Qed.

Lemma tidyDb_childrenHaveQuiz : childrenHaveQuiz tidyDb.
Proof.
  split; intros x Hx; apply list_elem_of_In in Hx; simpl in Hx;
    repeat (destruct Hx as [<-|Hx]); try contradiction;
    first [ exists oldQuiz; split; [|reflexivity]; apply list_elem_of_In; simpl; tauto
          | exists freshQuiz; split; [|reflexivity]; apply list_elem_of_In; simpl; tauto ].
Qed.

Lemma sweep_never_orphans_children_witness :
  childrenHaveQuiz (db (sweep questionsDown (8 * day) tidyWorld)).
Proof.
  apply (sweep_never_orphans_children questionsDown (8 * day) tidyWorld).
  exact tidyDb_childrenHaveQuiz.
Defined.



(** With unique quiz ids, the id of a quiz is among the collected ids
    exactly when the quiz has expired. *)
Lemma inArray_expiredIds now d q :
  NoDup (map quiz_id (quizzes d)) -> q ∈ quizzes d ->
  inArray (quiz_id q) (expiredIds now d) = (createdAt q <? now - sevenDays).
Proof.
  intros Hnd Hq. apply eq_true_iff_eq. unfold expiredIds.
  rewrite inArray_expired_ids. split.
  - intros (q0 & Hq0 & Hexp & E).
    rewrite (NoDup_map_inj quiz_id _ q q0 Hnd Hq Hq0 E).
    unfold expiredAt in Hexp. now apply Z.ltb_lt.
  - intros Hlt. exists q. split; [exact Hq|]. split; [|reflexivity].
    unfold expiredAt. now apply Z.ltb_lt.
Qed.



Lemma filter_idem {A} (f : A -> bool) (l : list A) :
  List.filter f (List.filter f l) = List.filter f l.
Proof.
  induction l as [|x r IH]; simpl; [reflexivity|].
  destruct (f x) eqn:E; simpl; [rewrite E; now f_equal | exact IH].
Qed.

Lemma filter_not_in_nil {A} (g : A -> Z) (l : list A) :
  List.filter (fun x => negb (inArray (g x) nil)) l = l.
Proof.
  etransitivity; [|apply filter_all]. apply filter_ext_elem. intros x _.
  unfold inArray. rewrite bool_decide_eq_false_2; [reflexivity | apply not_elem_of_nil].
Qed.

(** Once the quizzes with the collected ids are gone, nothing in the table
    has expired at that time or an earlier one. *)
Lemma nothing_expired_after_delete now now' d :
  now' <= now ->
  List.filter (fun q => createdAt q <? now' - sevenDays)
    (List.filter (fun q => negb (inArray (quiz_id q) (expiredIds now d))) (quizzes d))
  = nil.
Proof.
  intros Hle.
  assert (Hgen : forall l,
    (forall q, q ∈ l -> (createdAt q <? now - sevenDays) = true ->
               inArray (quiz_id q) (expiredIds now d) = true) ->
    List.filter (fun q => createdAt q <? now' - sevenDays)
      (List.filter (fun q => negb (inArray (quiz_id q) (expiredIds now d))) l) = nil).
  { intros l. induction l as [|q r IH]; intros H; [reflexivity|]. simpl.
    destruct (inArray (quiz_id q) (expiredIds now d)) eqn:Hin; simpl.
    - apply IH. intros q' Hq'. apply H. now constructor.
    - destruct (Z.ltb_spec (createdAt q) (now' - sevenDays)) as [Hlt|Hge].
      + exfalso. rewrite H in Hin; [discriminate | constructor |].
        apply Z.ltb_lt. lia.
      + apply IH. intros q' Hq'. apply H. now constructor. }
  apply Hgen. intros q' Hq' Hlt.
  unfold expiredIds. apply inArray_expired_ids. exists q'.
  split; [exact Hq'|]. split; [|reflexivity]. unfold expiredAt. now apply Z.ltb_lt.
Qed.

(** With the select up and nothing expired, a sweep returns at once. *)
Lemma sweep_early_exit f now w :
  selectFault f = None ->
  List.filter (fun q => createdAt q <? now - sevenDays) (quizzes (db w)) = nil ->
  cleanupExpiredQuizzes f now w
  = ({| db := db w;
        issued := (issued w ++ [SelectExpired (now - sevenDays)])%list |},
     Ok {| success := true;
           message := "No expired quizzes found to clean up";
           count := Some 0;
           quizIds := None;
           error := None |}).
Proof.
  intros Hs Hnone.
  destruct f as [sf imf daf dqf dzf]. simpl in Hs. subst sf.
  unfold cleanupExpiredQuizzes, tryCatch, bind, selectExpired, statement,
    getRetentionCutoffDate.
  cbn [selectFault db issued]. rewrite Hnone. reflexivity.
Qed.

Lemma databaseUp_stage f : databaseUp f -> selectFault f = None /\ deletesDone f = 3%nat.
Proof.
  intros (Hs & Ha & Hq & Hz). split; [exact Hs|]. unfold deletesDone.
  now rewrite Ha, Hq, Hz.
Qed.

Lemma afterDeletes_again now n d :
  (n <= 3)%nat ->
  afterDeletes 3 (expiredIds now (afterDeletes n (expiredIds now d) d))
    (afterDeletes n (expiredIds now d) d)
  = afterDeletes 3 (expiredIds now d) d.
Proof.
  intros Hn. destruct d as [qs xs ats].
  destruct n as [|[|[|[|n]]]]; [| | | |lia];
    unfold afterDeletes at 2 3; cbn [Nat.leb quizzes questions quizAttempts].
  1-3: unfold afterDeletes; cbn [Nat.leb quizzes questions quizAttempts];
       rewrite ?filter_idem; reflexivity.
  unfold afterDeletes at 1. cbn [Nat.leb quizzes questions quizAttempts].
  assert (E : expiredIds now
                {| quizzes :=
                     List.filter
                       (fun q => negb (inArray (quiz_id q)
                                         (expiredIds now
                                            {| quizzes := qs; questions := xs;
                                               quizAttempts := ats |}))) qs;
                   questions :=
                     List.filter
                       (fun q => negb (inArray (question_quizId q)
                                         (expiredIds now
                                            {| quizzes := qs; questions := xs;
                                               quizAttempts := ats |}))) xs;
                   quizAttempts :=
                     List.filter
                       (fun a => negb (inArray (attempt_quizId a)
                                         (expiredIds now
                                            {| quizzes := qs; questions := xs;
                                               quizAttempts := ats |}))) ats |}
              = nil).
  { unfold expiredIds at 1. cbn [quizzes].
    pose proof (nothing_expired_after_delete now now
                  {| quizzes := qs; questions := xs; quizAttempts := ats |}
                  (Z.le_refl _)) as H.
    cbn [quizzes] in H. now rewrite H. }
  rewrite E, !filter_not_in_nil. reflexivity.
Qed.

(** X3: a sweep that fails part of the way is made good by the next one:
    a sweep with the database up, run after a sweep at the same time in
    which any statements failed, leaves the tables as one sweep with the
    database up leaves them. *)
Theorem failed_sweep_is_completed_by_the_next (f f' : Faults) (now : Z) (w : World) :
  databaseUp f' ->
  db (sweep f' now (sweep f now w)) = db (sweep f' now w).
Proof.
  intros [Hs Hd]%databaseUp_stage.
  rewrite (sweep_stage f' now (sweep f now w)), (sweep_stage f' now w), Hs, Hd.
  rewrite (sweep_stage f now w). destruct (selectFault f); [reflexivity|].
  apply afterDeletes_again. unfold deletesDone.
  destruct (deleteAttemptsFault f), (deleteQuestionsFault f),
    (deleteQuizzesFault f); lia.
Qed.

Lemma failed_sweep_is_completed_by_the_next_witness :
  db (sweep noFaults (8 * day) (sweep questionsDown (8 * day) tidyWorld))
  = db (sweep noFaults (8 * day) tidyWorld).
Proof.
  apply (failed_sweep_is_completed_by_the_next questionsDown noFaults (8 * day) tidyWorld).
  repeat split; reflexivity.
Defined.

(** X4: after a sweep with the database up, a sweep at the same or an
    earlier time finds nothing expired: it returns success with count 0,
    issues no statement but its select and leaves the tables as they
    are. *)
Theorem second_sweep_finds_nothing (f f' : Faults) (now now' : Z) (w : World) :
  databaseUp f ->
  selectFault f' = None ->
  now' <= now ->
  cleanupExpiredQuizzes f' now' (sweep f now w)
  = ({| db := db (sweep f now w);
        issued := (issued (sweep f now w) ++ [SelectExpired (now' - sevenDays)])%list |},
     Ok {| success := true;
           message := "No expired quizzes found to clean up";
           count := Some 0;
           quizIds := None;
           error := None |}).
Proof.
  intros [Hs Hd]%databaseUp_stage Hs' Hle.
  apply sweep_early_exit; [exact Hs'|].
  rewrite sweep_stage, Hs, Hd. unfold afterDeletes. cbn [Nat.leb quizzes].
  now apply nothing_expired_after_delete.
Qed.

Lemma second_sweep_finds_nothing_witness :
  sweepResult noFaults (8 * day) (sweep noFaults (8 * day) tidyWorld)
  = Some {| success := true;
            message := "No expired quizzes found to clean up";
            count := Some 0;
            quizIds := None;
            error := None |}.
Proof.
  unfold sweepResult.
  rewrite (second_sweep_finds_nothing noFaults noFaults (8 * day) (8 * day) tidyWorld).
  - reflexivity.
  - repeat split; reflexivity.
  - reflexivity.
  - lia.
Defined.

Lemma filter_split_length {A} (f : A -> bool) (l : list A) :
  (length (List.filter f l) + length (List.filter (fun x => negb (f x)) l))%nat
  = length l.
Proof.
  induction l as [|x r IH]; simpl; [reflexivity|].
  destruct (f x); simpl; lia.
Qed.

(** X5: with the database up and unique quiz ids, the count that a sweep
    reports is the number of quizzes that the table lost, and the ids that
    it reports are the ids of the quizzes that are gone. *)
Theorem sweep_reports_what_it_deleted (f : Faults) (now : Z) (w : World) :
  databaseUp f ->
  NoDup (map quiz_id (quizzes (db w))) ->
  exists r,
    sweepResult f now w = Some r
    /\ count r
       = Some (Z.of_nat (length (quizzes (db w)))
               - Z.of_nat (length (quizzes (db (sweep f now w)))))
    /\ (forall ids, quizIds r = Some ids ->
          forall id, id ∈ ids <->
            exists q, q ∈ quizzes (db w) /\ quiz_id q = id
                      /\ q ∉ quizzes (db (sweep f now w))).
Proof.
  intros Hup Hnd.
  assert (Hq : quizzes (db (sweep f now w))
    = List.filter (fun q => negb (createdAt q <? now - sevenDays)) (quizzes (db w))).
  { destruct (databaseUp_stage f Hup) as [Hs Hd].
    rewrite sweep_stage, Hs, Hd. unfold afterDeletes. cbn [Nat.leb quizzes].
    apply filter_ext_elem. intros q Hin. now rewrite inArray_expiredIds. }
  pose proof (filter_split_length (fun q => createdAt q <? now - sevenDays)
                (quizzes (db w))) as Hlen.
  rewrite Hq. unfold sweepResult. rewrite (sweep_run f now w Hup). cbv zeta.
  destruct (List.filter (fun q => createdAt q <? now - sevenDays) (quizzes (db w)))
    as [|q0 r] eqn:E; cbn [snd].
  - eexists. split; [reflexivity|]. cbn [count quizIds]. split.
    + f_equal. simpl in Hlen. lia.
    + discriminate.
  - eexists. split; [reflexivity|]. cbn [count quizIds]. split.
    + f_equal. lia.
    + intros ids Hids id. inversion Hids; subst ids; clear Hids.
      change (quiz_id q0 :: map quiz_id r) with (map quiz_id (q0 :: r)).
      rewrite <- E. rewrite list_elem_of_In, in_map_iff. split.
      * intros (q & Eid & Hin). apply filter_In in Hin as [Hin Hlt].
        exists q. split; [now apply list_elem_of_In|]. split; [exact Eid|].
        intros [_ Hkeep]%elem_of_filter_bool. rewrite Hlt in Hkeep. discriminate.
      * intros (q & Hin & Eid & Hgone). exists q. split; [exact Eid|].
        apply filter_In. split; [now apply list_elem_of_In|].
        destruct (createdAt q <? now - sevenDays) eqn:Hlt; [reflexivity|].
        exfalso. apply Hgone. apply elem_of_filter_bool. split; [exact Hin|].
        now rewrite Hlt.
Qed.

Lemma sweep_reports_what_it_deleted_witness :
  exists r,
    sweepResult noFaults (8 * day) tidyWorld = Some r
    /\ count r = Some 1
    /\ quizIds r = Some [12].
Proof.
  destruct (sweep_reports_what_it_deleted noFaults (8 * day) tidyWorld)
    as (r & Hr & Hcount & _).
  - repeat split; reflexivity.
  - apply (bool_decide_unpack (NoDup _)). vm_compute. exact I.
  - exists r. split; [exact Hr|]. split; [exact Hcount|].
    vm_compute in Hr. inversion Hr. reflexivity.
Defined.


(** ** Ids printed and parsed *)









(** ** The attempt read handlers *)

Lemma insertBy_perm {A} (cmp : A -> A -> Z) x l : insertBy cmp x l ≡ₚ x :: l.
Proof.
  induction l as [|y r IH]; simpl; [reflexivity|].
  destruct (0 <? cmp x y); [|reflexivity].
  rewrite IH. apply Permutation_swap.
Qed.

Lemma sort_perm {A} (cmp : A -> A -> Z) l : sort cmp l ≡ₚ l.
Proof.
  induction l as [|x r IH]; simpl; [reflexivity|].
  unfold sort in *. simpl. rewrite insertBy_perm. now rewrite IH.
Qed.

Lemma insertBy_newestFirst_sorted x l :
  StronglySorted (fun a b => completedAt b <= completedAt a) l ->
  StronglySorted (fun a b => completedAt b <= completedAt a)
    (insertBy newestFirst x l).
Proof.
  induction l as [|y r IH]; simpl; intros Hs.
  - repeat constructor.
  - apply StronglySorted_inv in Hs as [Hr Hy].
    unfold newestFirst at 1. destruct (Z.ltb_spec 0 (completedAt y - completedAt x)).
    + constructor; [now apply IH|].
      rewrite insertBy_perm. constructor; [lia | exact Hy].
    + constructor; [now constructor|].
      constructor; [lia|]. eapply Forall_impl; [exact Hy|].
      intros z Hz. simpl in Hz. lia.
Qed.

Lemma sort_newestFirst_sorted l :
  StronglySorted (fun a b => completedAt b <= completedAt a) (sort newestFirst l).
Proof.
  induction l as [|x r IH]; simpl; [constructor|].
  now apply insertBy_newestFirst_sorted.
Qed.

Lemma insertBy_newestFirst_stable time x l :
  List.filter (fun a => completedAt a =? time) (insertBy newestFirst x l)
  = List.filter (fun a => completedAt a =? time) (x :: l).
Proof.
  induction l as [|y r IH]; [reflexivity|].
  cbn [insertBy]. unfold newestFirst at 1.
  destruct (Z.ltb_spec 0 (completedAt y - completedAt x)); [|reflexivity].
  cbn [List.filter] in *. rewrite IH.
  destruct (Z.eqb_spec (completedAt x) time), (Z.eqb_spec (completedAt y) time);
    try reflexivity. lia.
Qed.

Lemma sort_newestFirst_stable time l :
  List.filter (fun a => completedAt a =? time) (sort newestFirst l)
  = List.filter (fun a => completedAt a =? time) l.
Proof.
  induction l as [|x r IH]; [reflexivity|].
  unfold sort in *. cbn [fold_right]. rewrite insertBy_newestFirst_stable.
  cbn [List.filter]. now rewrite IH.
Qed.

(** X7: for a numeric quiz id the attempts route answers 200 with the
    attempts that storage returns, each once, ordered from the newest to
    the oldest; attempts completed at the same time keep the order in which
    storage returned them, and [count] is their number. *)
Theorem attempts_are_listed_newest_first
    (getQuizAttempts : Db -> Z -> Exc (list QuizAttempt))
    (d : Db) (timestamp : Z) (p : string) (quizId : Z) (found : list QuizAttempt) :
  parseInt p = Some quizId ->
  getQuizAttempts d quizId = Ok found ->
  exists data,
    quizAttemptsRoute getQuizAttempts d timestamp p
    = {| headers := noCache ∅;
         code := 200;
         payload := ManyAttempts data timestamp (Z.of_nat (length found)) |}
    /\ data ≡ₚ found
    /\ StronglySorted (fun a b => completedAt b <= completedAt a) data
    /\ (forall time,
          List.filter (fun a => completedAt a =? time) data
          = List.filter (fun a => completedAt a =? time) found).
Proof.
  intros Hp Hfound. exists (sort newestFirst found).
  split; [|split; [apply sort_perm | split;
                   [apply sort_newestFirst_sorted
                   | intros time; apply sort_newestFirst_stable]]].
  unfold quizAttemptsRoute. rewrite Hp, Hfound. cbv zeta. do 3 f_equal.
  apply Permutation_length, sort_perm.
Qed.

Lemma attempts_are_listed_newest_first_witness :
  exists data,
    quizAttemptsRoute attemptsInTableOrder threeAttempts (9 * day) "12"
    = {| headers := noCache ∅;
         code := 200;
         payload := ManyAttempts data (9 * day) 3 |}
    /\ data ≡ₚ [attemptAt 1 (3 * day); attemptAt 2 (4 * day); attemptAt 3 (3 * day)]
    /\ map attempt_id data = [2; 1; 3].
Proof.
  destruct (attempts_are_listed_newest_first attemptsInTableOrder threeAttempts
              (9 * day) "12" 12 _ eq_refl eq_refl) as (data & Hroute & Hperm & _).
  exists data. split; [exact Hroute|]. split; [exact Hperm|].
  vm_compute in Hroute. inversion Hroute. reflexivity.
Defined.




(** X9: every reply of the two attempt handlers, the 400, the 404 and the
    500 included, carries the three headers that forbid caching, since they
    are set before the id is looked at. *)
Theorem attempt_replies_are_never_cacheable
    (getQuizAttempts : Db -> Z -> Exc (list QuizAttempt))
    (selectFault : option JsError) (d : Db) (timestamp : Z) (p : string) :
  let forbidsCaching (r : Reply) :=
    headers r !! "Cache-Control" = Some "no-cache, no-store, must-revalidate"
    /\ headers r !! "Pragma" = Some "no-cache"
    /\ headers r !! "Expires" = Some "0" in
  forbidsCaching (quizAttemptsRoute getQuizAttempts d timestamp p)
  /\ forbidsCaching (attemptByIdRoute selectFault d timestamp p).
Proof.
  cbv zeta. unfold quizAttemptsRoute, attemptByIdRoute.
  destruct (parseInt p) as [id|]; cbv zeta;
    [destruct (getQuizAttempts d id), selectFault; try destruct (find _ _)|];
    cbn [headers]; unfold noCache; repeat split; reflexivity.
Qed.

(** ** The order of the verify handler's checks *)

Lemma parseAnswerBody_throws reqBody e :
  parseAnswerBody reqBody = Throw e -> e = ZodError.
Proof.
  unfold parseAnswerBody. destruct reqBody as [| | | | |fields]; try congruence.
  destruct (lookupField "answer" fields) as [[| | | |items|]|]; try congruence.
  destruct (allStrings items); congruence.
Qed.

(** X10: the verify handler reports an id that is no number before it
    looks at the body, and a body without a string or an array of strings
    as answer before it looks for the question: such a body is answered 400
    also when the question does not exist, and 404 is the answer only for a
    numeric id with a valid body.  The status is one of 200, 400, 404 and
    500. *)
Theorem verify_checks_id_then_body_then_question
    (d : Db) (p : string) (reqBody : JsVal) :
  (parseInt p = None ->
   verifyRoute d p reqBody = json 400 (Message "Invalid question ID"))
  /\ (forall id e, parseInt p = Some id -> parseAnswerBody reqBody = Throw e ->
        verifyRoute d p reqBody = json 400 (MessageZod "Invalid answer data"))
  /\ (status (verifyRoute d p reqBody) = 404 <->
      exists id answer,
        parseInt p = Some id /\ parseAnswerBody reqBody = Ok answer
        /\ questionById d id = None)
  /\ (status (verifyRoute d p reqBody) = 200
      \/ status (verifyRoute d p reqBody) = 400
      \/ status (verifyRoute d p reqBody) = 404
      \/ status (verifyRoute d p reqBody) = 500).
Proof.
  unfold verifyRoute, questionById.
  destruct (parseInt p) as [id|]; cbn [verifyCatch].
  2:{ cbn [status json].
      split; [reflexivity|]. split; [intros id e H; discriminate H|].
      split; [|lia]. split; [lia|].
      intros (id & a & H & _). discriminate H. }
  destruct (parseAnswerBody reqBody) as [e|answer] eqn:Hb; cbn [bindExc verifyCatch].
  { apply parseAnswerBody_throws in Hb as ->. cbn [verifyCatch status json].
    split; [intros H; discriminate H|]. split; [reflexivity|].
    split; [|lia]. split; [lia|].
    intros (id' & a & _ & H & _). discriminate H. }
  destruct (find _ (questions d)) as [q|] eqn:Hq; cbn [verifyCatch].
  2:{ cbn [status json].
      split; [intros H; discriminate H|].
      split; [intros id' e _ H; discriminate H|].
      split; [|lia]. split; [|reflexivity].
      intros _. exists id, answer. auto. }
  assert (Hst : let r := verifyCatch
                  (bindExc (decodeCorrectAnswers (correctAnswers q)) (fun correct =>
                   bindExc (verifyAnswer correct answer) (fun isCorrect =>
                   Ok (json 200 (IsCorrect isCorrect))))) in
                status r = 200 \/ status r = 400 \/ status r = 500).
  { cbv zeta. destruct (decodeCorrectAnswers (correctAnswers q)) as [e|c];
      cbn [bindExc verifyCatch]; [destruct e; cbn; auto|].
    destruct (verifyAnswer c answer) as [e|b]; cbn [bindExc verifyCatch];
      [destruct e; cbn; auto | cbn; auto]. }
  cbv zeta in Hst.
  split; [intros H; discriminate H|].
  split; [intros id' e _ H; discriminate H|]. split.
  - split.
    + intros H. rewrite H in Hst. lia.
    + intros (id' & a & H1 & _ & H3). inversion H1; subst.
      rewrite Hq in H3. discriminate H3.
  - destruct Hst as [Hx|[Hx|Hx]]; rewrite Hx; auto.
Qed.

(** ** Names that the form sends *)








(** ** Image upload *)

Set Warnings "-clear-no-such-hyp".

Lemma sameIgnoringCase_toLowerChar a b :
  sameIgnoringCase (toLowerChar a) b = sameIgnoringCase a b.
Proof. unfold sameIgnoringCase. now rewrite toLowerChar_idem. Qed.

Lemma matchesToEnd_iff pat s :
  matchesToEnd pat s = true <-> toLowerCase pat = toLowerCase s.
Proof.
  revert s. induction pat as [|p pr IH]; intros [|c cr]; simpl;
    try (split; [discriminate | discriminate]); [tauto|].
  rewrite andb_true_iff, IH. unfold sameIgnoringCase.
  split.
  - intros [H1 H2]. apply Ascii.eqb_eq in H1. now rewrite H1, H2.
  - intros H. inversion H as [[H1 H2]]. split; [|reflexivity].
    apply Ascii.eqb_eq. reflexivity.
Qed.

Lemma toLowerCase_dot_prefix s ext :
  toLowerCase s = "." +:+ ext ->
  exists e, s = "." +:+ e /\ toLowerCase e = ext.
Proof.
  destruct s as [|c r]; simpl; [discriminate|].
  intros H. inversion H as [[Hc Hr]]. exists r. split; [|exact Hr].
  f_equal. clear -Hc.
  destruct c as [[] [] [] [] [] [] [] []]; try reflexivity;
    vm_compute in Hc; discriminate Hc.
Qed.

Lemma isImageName_iff name :
  isImageName name = true
  <-> exists stem e, name = stem +:+ "." +:+ e /\ toLowerCase e ∈ imageExtensions.
Proof.
  induction name as [|c r IH].
  - cbn. split; [discriminate|].
    intros (stem & e & H & _). destruct stem; discriminate H.
  - cbn [isImageName]. rewrite orb_true_iff, IH, existsb_exists. split.
    + intros [(ext & Hin & Hm)|(stem & e & -> & He)].
      * apply matchesToEnd_iff in Hm.
        assert (Hext : toLowerCase ("." +:+ ext) = "." +:+ ext).
        { simpl in Hin. destruct Hin as [<-|[<-|[<-|[<-|[]]]]]; reflexivity. }
        rewrite Hext in Hm. symmetry in Hm.
        destruct (toLowerCase_dot_prefix _ _ Hm) as (e & -> & He).
        exists "", e. split; [reflexivity|]. rewrite He. now apply list_elem_of_In.
      * exists (String c stem), e. split; [reflexivity | exact He].
    + intros (stem & e & H & He). destruct stem as [|c' stem'].
      * left. exists (toLowerCase e). split; [now apply list_elem_of_In|].
        apply matchesToEnd_iff. rewrite H.
        change (String (toLowerChar ".") (toLowerCase (toLowerCase e))
                = String (toLowerChar ".") (toLowerCase e)).
        now rewrite toLowerCase_idem.
      * right. cbn in H. inversion H; subst. exists stem', e. split; [reflexivity | exact He].
Qed.

(** X12: the upload accepts a file name exactly when it ends in a dot
    followed by jpg, jpeg, png or gif in any letter case, with nothing
    after it; so two names that differ only in letter case are treated
    alike. *)
Theorem upload_accepts_image_extensions_only (name name' : string) :
  (fileFilter name = Ok tt
   <-> exists stem e, name = stem +:+ "." +:+ e /\ toLowerCase e ∈ imageExtensions)
  /\ (toLowerCase name = toLowerCase name' -> fileFilter name = fileFilter name').
Proof.
  assert (Hok : forall n, fileFilter n = Ok tt <-> isImageName n = true).
  { intros n. unfold fileFilter. destruct (isImageName n); split; congruence. }
  split.
  - rewrite Hok. apply isImageName_iff.
  - intros Hcase. unfold fileFilter.
    assert (E : isImageName name = isImageName name'); [|now rewrite E].
    revert name' Hcase. induction name as [|c r IH]; intros [|c' r'] Hcase;
      try discriminate Hcase; [reflexivity|].
    cbn [isImageName]. cbn in Hcase. inversion Hcase as [[Hc Hr]].
    rewrite (IH r' Hr). f_equal.
    assert (Hm : forall ext, matchesToEnd ("." +:+ ext) (String c r)
                             = matchesToEnd ("." +:+ ext) (String c' r')).
    { intros ext. apply eq_true_iff_eq. rewrite !matchesToEnd_iff.
      cbn [toLowerCase]. now rewrite Hc, Hr. }
    unfold imageExtensions. cbn [existsb]. now rewrite !Hm.
Qed.

(** X13: for a request with a file, the temporary file is removed whether
    the image store accepts the upload or not, unless the system refuses
    the removal; no other file is touched, and the reply (200 with the URL,
    or 500) is the same whether the removal succeeds or not. *)
Theorem upload_removes_its_temporary_file
    (uploadImage : string -> Exc string) (refused : bool)
    (files : gset string) (path : string) :
  path <> "" ->
  (refused = false -> path ∉ fst (uploadRoute uploadImage refused files (Some path)))
  /\ (forall other, other <> path ->
        other ∈ fst (uploadRoute uploadImage refused files (Some path))
        <-> other ∈ files)
  /\ snd (uploadRoute uploadImage refused files (Some path))
     = match uploadImage path with
       | Ok secure_url => {| uploadStatus := 200; uploadBody := ImageUrl secure_url |}
       | Throw _ =>
           {| uploadStatus := 500; uploadBody := UploadMessage "Failed to upload image" |}
       end
  /\ uploadRoute uploadImage refused files None
     = (files, {| uploadStatus := 400; uploadBody := UploadMessage "No file uploaded" |}).
Proof.
  intros Hpath.
  assert (Hne : negb (String.eqb path "") = true).
  { apply negb_true_iff, String.eqb_neq. exact Hpath. }
  unfold uploadRoute, unlinkSync. rewrite Hne. cbn [andb].
  split; [|split; [|split; [|reflexivity]]].
  - intros ->. cbn [orb].
    destruct (uploadImage path); cbn [fst];
      destruct (bool_decide_reflect (path ∈ files)); cbn [negb fst]; set_solver.
  - intros other Hother.
    destruct (uploadImage path); cbn [fst];
      destruct (bool_decide_reflect (path ∈ files)), refused;
      cbn [negb orb fst]; set_solver.
  - destruct (uploadImage path); reflexivity.
Qed.

Lemma upload_removes_its_temporary_file_witness :
  "temp_uploads/image-1.png"
  ∉ fst (uploadRoute (fun _ => Throw (Error "store unreachable")) false
           {[ "temp_uploads/image-1.png"; "temp_uploads/image-2.png" ]}
           (Some "temp_uploads/image-1.png")).
Proof.
  apply (upload_removes_its_temporary_file
           (fun _ => Throw (Error "store unreachable")) false
           {[ "temp_uploads/image-1.png"; "temp_uploads/image-2.png" ]}
           "temp_uploads/image-1.png").
  - discriminate.
  - reflexivity.
Defined.

(** ** The score of the quiz page *)

Lemma filter_Forall_true {A} (f : A -> bool) (l : list A) :
  Forall (fun a => f a = true) l -> List.filter f l = l.
Proof.
  induction 1 as [|x r Hx _ IH]; simpl; [reflexivity|]. now rewrite Hx, IH.
Qed.

Lemma Forall_removelast {A} (P : A -> Prop) (l : list A) :
  Forall P l -> Forall P (removelast l).
Proof.
  induction 1 as [|x r Hx Hr IH]; simpl; [constructor|].
  destruct r; [constructor | now constructor].
Qed.

Lemma length_removelast_Z {A} (l : list A) :
  l <> nil -> Z.of_nat (length (removelast l)) = Z.of_nat (length l) - 1.
Proof.
  intros H. destruct (exists_last H) as (l' & x & ->).
  rewrite removelast_last, length_app. simpl. lia.
Qed.

Lemma step_keeps_pageInvariant questions pg ev :
  fromVerifyHandler ev ->
  pageInvariant questions pg -> pageInvariant questions (step questions pg ev).
Proof.
  intros Hev (Hidx & Hall & Hdone). destruct ev as [option|outcome|]; cbn [step].
  - repeat split; auto; cbn; lia.
  - unfold handleNext.
    destruct (String.eqb (selectedOption pg) ""); [repeat split; auto; lia|].
    destruct (currentQuestion questions pg) as [id|]; [|repeat split; auto; lia].
    destruct outcome as [e|v]; [repeat split; auto; lia|].
    destruct Hev as [b ->].
    assert (Hall' : Forall (fun a => truthy (isCorrect a) = true)
                      (userAnswers pg ++
                       [{| questionId := id; userAnswer := selectedOption pg;
                           isCorrect := isCorrectJson b |}])).
    { apply Forall_app. split; [exact Hall|]. repeat constructor. }
    cbv zeta.
    destruct (Z.eqb_spec (currentQuestionIndex pg) (Z.of_nat (length questions) - 1))
      as [Hlast|Hlast].
    + split; [|split].
      * cbn [currentQuestionIndex userAnswers]. rewrite length_app. simpl. lia.
      * exact Hall'.
      * cbn [completed]. intros answers score H. inversion H; subst; clear H.
        rewrite (filter_Forall_true _ _ Hall'), length_app. simpl. lia.
    + split; [|split].
      * cbn [currentQuestionIndex userAnswers]. rewrite length_app. simpl. lia.
      * exact Hall'.
      * exact Hdone.
  - unfold handleBack. destruct (Z.ltb_spec 0 (currentQuestionIndex pg));
      [|repeat split; auto; lia].
    split; [|split].
    + cbn [currentQuestionIndex userAnswers].
      rewrite length_removelast_Z; [lia|].
      intros E. rewrite E in Hidx. simpl in Hidx. lia.
    + now apply Forall_removelast.
    + exact Hdone.
Qed.

Lemma run_keeps_pageInvariant questions events pg :
  Forall fromVerifyHandler events ->
  pageInvariant questions pg ->
  pageInvariant questions (fold_left (step questions) events pg).
Proof.
  intros Hev. revert pg. induction Hev as [|ev r Hev _ IH]; intros pg Hpg; [exact Hpg|].
  simpl. apply IH. now apply step_keeps_pageInvariant.
Qed.

(** X14: on the quiz page, started with nothing saved, every score that is
    reported is the number of questions of the quiz, whatever the verify
    handler answered: the page keeps the reply object itself as the verdict
    of an answer, and an object counts as true.  The score posted with the
    attempt is that number too. *)
Theorem page_reports_the_number_of_questions
    (questions : list Z) (events : list PageEvent)
    (answers : list GivenAnswer) (score : Z) :
  Forall fromVerifyHandler events ->
  completed (run questions events) = Some (answers, score) ->
  score = Z.of_nat (length questions)
  /\ postedScore score questions = Z.of_nat (length questions).
Proof.
  intros Hev Hdone.
  assert (Hinv : pageInvariant questions (run questions events)).
  { apply run_keeps_pageInvariant; [exact Hev|].
    repeat split; cbn; try lia; [constructor | discriminate]. }
  destruct Hinv as (_ & _ & Hscore).
  pose proof (Hscore answers score Hdone) as ->.
  split; [reflexivity|]. unfold postedScore. lia.
Qed.

Lemma page_reports_the_number_of_questions_witness :
  completed (run [7; 8] allWrong) = Some (wrongAnswers, 2)
  /\ postedScore 2 [7; 8] = 2.
Proof.
  split; [reflexivity|].
  apply (page_reports_the_number_of_questions [7; 8] allWrong wrongAnswers 2).
  - repeat constructor; eexists; reflexivity.
  - reflexivity.
Defined.

(** X15: the delay before a retry of the quiz queries doubles from one
    second and is capped at ten: it never falls below 1000 ms nor exceeds
    10000 ms, never decreases from one retry to the next, and is 10000 ms
    from the fifth retry on. *)
Theorem retry_delay_is_capped (attemptIndex later : Z) :
  0 <= attemptIndex <= later ->
  1000 <= retryDelay attemptIndex <= 10000
  /\ retryDelay attemptIndex <= retryDelay later
  /\ (attemptIndex <= 3 -> retryDelay attemptIndex = 1000 * 2 ^ attemptIndex)
  /\ (4 <= attemptIndex -> retryDelay attemptIndex = 10000).
Proof.
  intros [H0 Hle]. unfold retryDelay.
  assert (Hpos : 1 <= 2 ^ attemptIndex).
  { change 1 with (2 ^ 0). apply Z.pow_le_mono_r; lia. }
  assert (Hmono : 2 ^ attemptIndex <= 2 ^ later) by (apply Z.pow_le_mono_r; lia).
  repeat split; try lia.
  - intros H3. assert (2 ^ attemptIndex <= 2 ^ 3) by (apply Z.pow_le_mono_r; lia).
    change (2 ^ 3) with 8 in *. lia.
  - intros H4. assert (2 ^ 4 <= 2 ^ attemptIndex) by (apply Z.pow_le_mono_r; lia).
    change (2 ^ 4) with 16 in *. lia.
Qed.

Lemma retry_delay_is_capped_witness :
  1000 <= retryDelay 2 <= 10000 /\ retryDelay 2 <= retryDelay 5.
Proof.
  destruct (retry_delay_is_capped 2 5) as (H1 & H2 & _); [lia|].
  split; assumption.
Defined.

(** ** The quiz form *)

Import QuizForm.

(** With a flag per option, the options that [addQuestion] builds are the
    options paired with the flags. *)
Lemma imap_flags_zip (opts : list string) (flags : list (option bool)) :
  length flags = length opts ->
  imap (fun index option =>
          {| choiceText := option; choiceIsCorrect := mjoin (flags !! index) |}) opts
  = zip_with choice opts flags.
Proof.
  revert flags. induction opts as [|o r IH]; intros [|fl flags] Hlen;
    try discriminate Hlen; [reflexivity|].
  rewrite imap_cons. cbn [zip_with]. f_equal.
  rewrite <- (IH flags) by (simpl in Hlen; lia). apply imap_ext. reflexivity.
Qed.

Lemma filter_zip_choice_length (opts : list string) (flags : list (option bool)) :
  length flags = length opts ->
  length (List.filter (fun o => filled (choiceText o)) (zip_with choice opts flags))
  = length (List.filter filled opts).
Proof.
  revert flags. induction opts as [|o r IH]; intros [|fl flags] Hlen;
    try discriminate Hlen; [reflexivity|].
  cbn. destruct (filled o); cbn; rewrite IH by (simpl in Hlen; lia); reflexivity.
Qed.

Lemma filter_zip_choice_texts (opts : list string) (flags : list (option bool)) :
  length flags = length opts ->
  map choiceText
    (List.filter (fun o => filled (choiceText o)) (zip_with choice opts flags))
  = List.filter filled opts.
Proof.
  revert flags. induction opts as [|o r IH]; intros [|fl flags] Hlen;
    try discriminate Hlen; [reflexivity|].
  cbn. destruct (filled o); cbn; rewrite IH by (simpl in Hlen; lia); reflexivity.
Qed.

Lemma zip_choice_flags_defined (opts : list string) (flags : list (option bool)) :
  Forall (fun flag => exists b, flag = Some b) flags ->
  Forall (fun o => exists b, choiceIsCorrect o = Some b) (zip_with choice opts flags).
Proof.
  intros H. revert opts. induction H as [|fl flags Hfl _ IH]; intros [|o r];
    cbn; constructor; [exact Hfl | apply IH].
Qed.

Lemma validOptions_wellFormed c :
  length (correctAnswers c) = length (options c) ->
  Forall (fun flag => exists b, flag = Some b) (correctAnswers c) ->
  (2 <= length (List.filter filled (options c)))%nat ->
  (2 <= length (validOptions c))%nat
  /\ Forall (fun o => filled (choiceText o) = true
                      /\ exists b, choiceIsCorrect o = Some b) (validOptions c).
Proof.
  intros Hlen Hdef Htwo. unfold validOptions. rewrite imap_flags_zip by exact Hlen.
  split; [now rewrite filter_zip_choice_length|].
  apply Forall_forall. intros o Ho. apply elem_of_filter_bool in Ho as [Hin Hfilled].
  split; [exact Hfilled|].
  pose proof (zip_choice_flags_defined (options c) _ Hdef) as Hall.
  rewrite Forall_forall in Hall. now apply Hall.
Qed.

Lemma canAddQuestion_adds uploaded f :
  canAddQuestion (currentQuestion f) = true ->
  addQuestion uploaded f
  = {| questions :=
         questions f ++
         [{| listedText := text (currentQuestion f);
             listedImageUrl :=
               match selectedFile f with Some _ => uploaded | None => "" end;
             listedType := type (currentQuestion f);
             listedOptions := validOptions (currentQuestion f);
             listedCorrectAnswers := correctAnswers (currentQuestion f) |}];
       currentQuestion := emptyDraft;
       selectedFile := None;
       previewUrl := "" |}.
Proof.
  unfold canAddQuestion, addQuestion.
  intros [[H1 H2]%andb_true_iff H3]%andb_true_iff.
  apply negb_true_iff in H1. rewrite H1, H3. cbn [negb].
  apply Nat.leb_le in H2.
  destruct (Nat.ltb_spec (length (List.filter filled (options (currentQuestion f)))) 2);
    [lia | reflexivity].
Qed.

Lemma formStep_keeps_invariant f ev : formInvariant f -> formInvariant (formStep f ev).
Proof.
  intros (Hlen & Htwo & Hdef & Hqs). destruct ev; cbn [formStep].
  - repeat split; assumption.
  - destruct (Nat.ltb_spec index (length (options (currentQuestion f))));
      [|repeat split; assumption].
    unfold formInvariant, handleOptionChange. cbn.
    rewrite !length_insert. repeat split; assumption.
  - destruct (Nat.ltb_spec index (length (options (currentQuestion f))));
      [|repeat split; assumption].
    unfold formInvariant, handleCorrectAnswerChange. cbn.
    rewrite !length_alter. repeat split; try assumption.
    apply Forall_alter; [exact Hdef|]. intros; eauto.
  - unfold formInvariant, addOption. cbn. rewrite !length_app. cbn.
    repeat split; try lia; try assumption.
    apply Forall_app. split; [exact Hdef|]. repeat constructor. eauto.
  - destruct (Nat.ltb_spec index (length (options (currentQuestion f))));
      [|repeat split; assumption].
    destruct (Nat.ltb_spec 2 (length (options (currentQuestion f))));
      [|repeat split; assumption].
    unfold formInvariant, removeOption. cbn [andb]. cbn.
    rewrite !length_delete by (apply lookup_lt_is_Some; lia).
    repeat split; try lia; try assumption. now apply Forall_delete.
  - repeat split; assumption.
  - destruct (String.eqb (previewUrl f) ""); repeat split; assumption.
  - destruct (canAddQuestion (currentQuestion f)) eqn:Hcan;
      [|repeat split; assumption].
    rewrite (canAddQuestion_adds uploaded f Hcan).
    unfold formInvariant. cbn [questions currentQuestion].
    split; [reflexivity|]. split; [cbn; lia|].
    split; [repeat constructor; eauto|].
    apply Forall_app. split; [exact Hqs|]. constructor; [|constructor].
    unfold wellFormed. cbn [listedOptions].
    apply validOptions_wellFormed; try assumption.
    unfold canAddQuestion in Hcan.
    apply andb_true_iff in Hcan as [[_ H2]%andb_true_iff _].
    now apply Nat.leb_le.
  - unfold editQuestion. destruct (questions f !! index) as [q|] eqn:Hq;
      [|repeat split; assumption].
    assert (Hwf : wellFormed q).
    { rewrite Forall_forall in Hqs. apply Hqs.
      apply list_elem_of_lookup. eauto. }
    destruct Hwf as [Hq2 Hqall].
    unfold formInvariant. cbn [questions currentQuestion options correctAnswers].
    rewrite !length_map. repeat split; try assumption.
    + apply Forall_forall. intros fl Hfl. apply list_elem_of_In, in_map_iff in Hfl.
      destruct Hfl as (o & <- & Ho). rewrite Forall_forall in Hqall.
      apply Hqall. now apply list_elem_of_In.
    + now apply Forall_delete.
  - destruct (index <? length (questions f))%nat; [|repeat split; assumption].
    unfold formInvariant, deleteQuestion. cbn.
    repeat split; try assumption. now apply Forall_delete.
Qed.

Lemma formRun_keeps_invariant events f :
  formInvariant f -> formInvariant (fold_left formStep events f).
Proof.
  revert f. induction events as [|ev r IH]; intros f Hf; [exact Hf|].
  simpl. apply IH. now apply formStep_keeps_invariant.
Qed.

(** X16: whatever is done with the controls of the quiz form, every
    question of its list has at least two options, none of them blank, each
    with a boolean flag, and the question being typed has one flag per
    option and at least two options; a quiz is posted only with five
    questions or more, under the name given. *)
Theorem form_posts_only_complete_questions
    (events : list FormEvent) (username : string) :
  formInvariant (formRun events)
  /\ (forall name qs,
        handleFinishQuiz username (formRun events) = Some (name, qs) ->
        name = username /\ (5 <= length qs)%nat /\ Forall wellFormed qs).
Proof.
  assert (Hinv : formInvariant (formRun events)).
  { apply formRun_keeps_invariant. unfold formInvariant. cbn.
    repeat split; try lia; repeat constructor; eauto. }
  split; [exact Hinv|].
  intros name qs. unfold handleFinishQuiz, MIN_QUESTIONS_REQUIRED.
  destruct (Nat.ltb_spec (length (questions (formRun events))) 5); [discriminate|].
  intros H'. inversion H'; subst. repeat split; [exact H|].
  now destruct Hinv as (_ & _ & _ & Hqs).
Qed.

Lemma zip_choice_of_parts (v : list Choice) :
  zip_with choice (map choiceText v) (map choiceIsCorrect v) = v.
Proof.
  induction v as [|[t fl] r IH]; cbn; [reflexivity|]. now rewrite IH.
Qed.

(** X17: adding the question that is being typed and then editing it, as
    the last of the list, gives the list back as it was and the question
    back for typing with its text and type, with its options but for the
    blank ones, with one flag per option and each remaining option still
    carrying its own flag; the image is the one uploaded with it, if a file was selected. *)
Theorem add_then_edit_returns_the_question (uploaded : string) (f : Form) :
  length (correctAnswers (currentQuestion f)) = length (options (currentQuestion f)) ->
  canAddQuestion (currentQuestion f) = true ->
  exists f',
    editQuestion (length (questions f)) (addQuestion uploaded f) = Some f'
    /\ questions f' = questions f
    /\ text (currentQuestion f') = text (currentQuestion f)
    /\ type (currentQuestion f') = type (currentQuestion f)
    /\ options (currentQuestion f') = List.filter filled (options (currentQuestion f))
    /\ length (correctAnswers (currentQuestion f')) = length (options (currentQuestion f'))
    /\ zip_with choice (options (currentQuestion f')) (correctAnswers (currentQuestion f'))
       = List.filter (fun o => filled (choiceText o))
           (zip_with choice (options (currentQuestion f))
              (correctAnswers (currentQuestion f)))
    /\ imageUrl (currentQuestion f')
       = match selectedFile f with Some _ => uploaded | None => "" end.
Proof.
  intros Hlen Hcan. rewrite (canAddQuestion_adds uploaded f Hcan).
  unfold editQuestion. cbn [questions].
  rewrite list_lookup_middle by reflexivity.
  eexists. split; [reflexivity|].
  cbn [questions currentQuestion text type options correctAnswers imageUrl
       listedText listedType listedOptions listedImageUrl].
  unfold validOptions. rewrite (imap_flags_zip _ _ Hlen).
  repeat split.
  - change (questions f ++ [?x])%list with (questions f ++ x :: nil)%list.
    now rewrite delete_middle, app_nil_r.
  - now apply filter_zip_choice_texts.
  - now rewrite !length_map.
  - apply zip_choice_of_parts.
Qed.

Lemma add_then_edit_returns_the_question_witness :
  exists f',
    editQuestion 0 (addQuestion "https://img.example/home.png" typedForm) = Some f'
    /\ QuizForm.questions f' = nil
    /\ options (currentQuestion f') = ["Paris"; "Rome"]
    /\ correctAnswers (currentQuestion f') = [Some true; Some false]
    /\ imageUrl (currentQuestion f') = "https://img.example/home.png".
Proof.
  destruct (add_then_edit_returns_the_question "https://img.example/home.png"
              typedForm eq_refl eq_refl)
    as (f' & Hedit & Hqs & _ & _ & Hopts & Hlen & Hzip & Himg).
  exists f'. split; [exact Hedit|]. split; [exact Hqs|].
  split; [exact Hopts|]. split; [|exact Himg].
  rewrite Hopts in Hzip, Hlen.
  destruct (correctAnswers (currentQuestion f')) as [|a [|b [|c r]]];
    try discriminate Hlen.
  vm_compute in Hzip. congruence.
Defined.

(** ** The question editor *)

Import InsertSchemas QuestionEditor FormPost AttemptPost.

Lemma findIndex_first {A : Type} (p : A -> bool) (l : list A) (i : nat) (x : A) :
  l !! i = Some x -> p x = true ->
  0 <= findIndex p l <= Z.of_nat i
  /\ exists y, l !! Z.to_nat (findIndex p l) = Some y /\ p y = true.
Proof.
  revert i. induction l as [|x0 r IH]; intros i Hi Hp; [discriminate|].
  cbn [findIndex]. destruct (p x0) eqn:Hx0.
  - split; [lia|]. exists x0. now split.
  - destruct i as [|i']; [cbn in Hi; congruence|].
    cbn in Hi. destruct (IH i' Hi Hp) as (Hb & y & Hy & Hpy).
    destruct (Z.ltb_spec (findIndex p r) 0) as [Hneg|_]; [lia|].
    split; [lia|]. exists y. split; [|exact Hpy].
    replace (Z.to_nat (findIndex p r + 1)) with (S (Z.to_nat (findIndex p r))) by lia.
    exact Hy.
Qed.

Lemma optionAt_Some (l : list string) (i : Z) (x : string) :
  optionAt l i = Some x -> 0 <= i /\ l !! Z.to_nat i = Some x.
Proof.
  unfold optionAt. destruct (Z.ltb_spec i 0); [discriminate|]. now split.
Qed.

Lemma isAnswer_true (c opt : string) : isAnswer (Some c) opt = true -> opt = c.
Proof. cbn. apply String.eqb_eq. Qed.

(** X18: a question that the editor accepts and that is then taken back
    for editing, as the last of the list, leaves the list as it was and
    returns with its text and its options; the marked option is the first
    one with the text of the option that was marked, which is the same
    option when no two options have the same text. *)
Theorem edit_after_add_restores_the_question
    (url marked : string) (s : Editor) :
  blank (questionText s) = false ->
  existsb blank (editorOptions s) = false ->
  optionAt (editorOptions s) (correctOption s) = Some marked ->
  exists s',
    handleEditQuestion (length (questions s)) (handleAddQuestion (Some url) s)
      = Some s'
    /\ questions s' = questions s
    /\ questionText s' = questionText s
    /\ editorOptions s' = editorOptions s
    /\ 0 <= correctOption s' <= correctOption s
    /\ optionAt (editorOptions s') (correctOption s') = Some marked
    /\ (NoDup (editorOptions s) -> correctOption s' = correctOption s)
    /\ currentQuestionIndex s' = length (questions s).
Proof.
  intros Htext Hopts Hmarked.
  destruct (optionAt_Some _ _ _ Hmarked) as (Hpos & Hat).
  destruct (findIndex_first (isAnswer (Some marked)) (editorOptions s)
              (Z.to_nat (correctOption s)) marked Hat (String.eqb_refl marked))
    as (Hbound & y & Hy & Hpy).
  apply isAnswer_true in Hpy. subst y.
  assert (Hadd : exists img,
             handleAddQuestion (Some url) s
             = {| questionText := "";
                  editorOptions := [""; ""; ""; ""];
                  correctOption := 0;
                  questionImage := questionImage s;
                  questionImagePreview := removedPreview (questionImagePreview s);
                  questions :=
                    (questions s
                     ++ [{| id := Z.of_nat (length (questions s)) + 1;
                            quizId := -1;
                            question := questionText s;
                            type := "multiple-choice";
                            options := editorOptions s;
                            correctAnswer := Some marked;
                            hint := None;
                            order := Z.of_nat (length (questions s)) + 1;
                            imageUrl := img |}])%list;
                  currentQuestionIndex := currentQuestionIndex s;
                  currentEditingImageUrl := None |}).
  { unfold handleAddQuestion. rewrite Htext, Hopts, Hmarked.
    destruct (questionImage s); cbn [option_map]; eexists; reflexivity. }
  destruct Hadd as (img & ->).
  unfold handleEditQuestion. cbn [questions].
  rewrite list_lookup_middle by reflexivity.
  eexists. split; [reflexivity|].
  cbn [questions questionText editorOptions correctOption currentQuestionIndex
       question options correctAnswer].
  split; [|split; [reflexivity|split; [reflexivity|split; [lia|split; [|split]]]]].
  - change (questions s ++ [?x])%list with (questions s ++ x :: nil)%list.
    now rewrite delete_middle, app_nil_r.
  - unfold optionAt. destruct (Z.ltb_spec (findIndex (isAnswer (Some marked))
                                             (editorOptions s)) 0); [lia|exact Hy].
  - intros Hnodup.
    assert (Heq : Z.to_nat (findIndex (isAnswer (Some marked)) (editorOptions s))
                  = Z.to_nat (correctOption s)).
    { exact (NoDup_lookup _ _ _ _ Hnodup Hy Hat). }
    lia.
  - reflexivity.
Qed.

Lemma edit_after_add_restores_the_question_witness :
  exists s',
    handleEditQuestion 0 (handleAddQuestion (Some "https://img.example/1.png")
                            typedEditor) = Some s'
    /\ questionText s' = "Which city do I like best?"
    /\ editorOptions s' = ["Rome"; "Oslo"; "Rome"; "Lima"]
    /\ 0 <= correctOption s' <= 2.
Proof.
  destruct (edit_after_add_restores_the_question "https://img.example/1.png"
              "Rome" typedEditor eq_refl eq_refl eq_refl)
    as (s' & Hedit & _ & Htext & Hopts & Hmark & _).
  exists s'. split; [exact Hedit|]. split; [exact Htext|].
  split; [exact Hopts|exact Hmark].
Defined.

Lemma editorStep_keeps_file (s : Editor) (ev : EditorEvent) :
  questionImage s <> None -> questionImage (editorStep s ev) <> None.
Proof.
  intros Hs. destruct ev as [v|v|v|[[file url]|]| |upload|index|index|]; cbn;
    try exact Hs.
  - discriminate.
  - unfold handleAddQuestion.
    destruct (blank (questionText s)); [exact Hs|].
    destruct (existsb blank (editorOptions s)); [exact Hs|].
    destruct (questionImage s) as [file|] eqn:Hfile; [|congruence].
    destruct upload; cbn; congruence.
  - unfold handleEditQuestion.
    destruct (questions s !! index); [exact Hs|exact Hs].
  - unfold handlePrevQuestion.
    destruct (0 <? currentQuestionIndex s)%nat; [|exact Hs].
    destruct (negb (blank (questionText s))
              || existsb (fun o => negb (blank o)) (editorOptions s)); [exact Hs|].
    destruct (questions s !! (currentQuestionIndex s - 1)%nat); exact Hs.
Qed.

Lemma editorRun_keeps_file (events : list EditorEvent) (s : Editor) :
  questionImage s <> None -> questionImage (editorRun events s) <> None.
Proof.
  unfold editorRun. revert s.
  induction events as [|ev r IH]; intros s Hs; [exact Hs|].
  cbn [fold_left]. apply IH. now apply editorStep_keeps_file.
Qed.

(** X19: once a file has been chosen, nothing that is done with the editor
    unselects it, removing the image included: a question that is added
    later carries the image that the upload of the file returns, and is not
    added when that upload fails. *)
Theorem chosen_file_is_uploaded_with_every_later_question
    (events : list EditorEvent) (file objectUrl url : string) (s : Editor) :
  url <> "" ->
  blank (questionText
           (editorRun events (handleFileChange (Some (file, objectUrl)) s))) = false ->
  existsb blank
    (editorOptions
       (editorRun events (handleFileChange (Some (file, objectUrl)) s))) = false ->
  questionImage (editorRun events (handleFileChange (Some (file, objectUrl)) s))
    <> None
  /\ (exists q,
        questions (handleAddQuestion (Some url)
                     (editorRun events (handleFileChange (Some (file, objectUrl)) s)))
        = (questions (editorRun events (handleFileChange (Some (file, objectUrl)) s))
           ++ [q])%list
        /\ imageUrl q = Some url)
  /\ handleAddQuestion None
       (editorRun events (handleFileChange (Some (file, objectUrl)) s))
     = editorRun events (handleFileChange (Some (file, objectUrl)) s).
Proof.
  intros Hurl.
  assert (Hfile : questionImage
                    (editorRun events (handleFileChange (Some (file, objectUrl)) s))
                  <> None).
  { apply editorRun_keeps_file. cbn. discriminate. }
  generalize dependent (editorRun events (handleFileChange (Some (file, objectUrl)) s)).
  intros s1 Hfile Htext Hopts. split; [exact Hfile|].
  unfold handleAddQuestion. rewrite Htext, Hopts.
  destruct (questionImage s1) as [f1|]; [|congruence].
  cbn [option_map]. split; [|reflexivity].
  eexists. split; [reflexivity|]. cbn [imageUrl questions].
  unfold orElse at 2. cbn [nonEmpty].
  assert (Hne : String.eqb url "" = false) by now apply String.eqb_neq.
  rewrite Hne. cbn [negb]. unfold orElse. cbn [nonEmpty]. now rewrite Hne.
Qed.

Lemma chosen_file_is_uploaded_with_every_later_question_witness :
  questionImage (editorRun removeThenType
                   (handleFileChange (Some ("home.png", "blob:1")) initialEditor))
    <> None
  /\ (exists q,
        questions (handleAddQuestion (Some "https://img.example/1.png")
                     (editorRun removeThenType
                        (handleFileChange (Some ("home.png", "blob:1")) initialEditor)))
        = [q]
        /\ imageUrl q = Some "https://img.example/1.png").
Proof.
  destruct (chosen_file_is_uploaded_with_every_later_question removeThenType
              "home.png" "blob:1" "https://img.example/1.png" initialEditor)
    as (Hfile & (q & Hq & Himg) & _);
    [discriminate|reflexivity|reflexivity|].
  split; [exact Hfile|]. exists q. split; [exact Hq|exact Himg].
Defined.

(** ** Requests against the insert schemas *)

(** X20: the quiz that the editor's page posts passes the schema of the
    quiz handler with the fields of the request when the user id of the
    session is a number; when it is not, the handler refuses the quiz as
    invalid and stores nothing. *)
Theorem quiz_post_passes_the_schema_with_a_numeric_user_id
    (name : string) (userId : option string) (code slug token : string)
    (reqBody : JsVal) (d : Db) (now : Z) :
  quizPost name userId code slug token = Some reqBody ->
  match currentUserId userId with
  | Some n =>
      exists quizData_,
        quizRequest name n code slug token = Some quizData_
        /\ insertQuizSchema reqBody = Ok quizData_
  | None =>
      createQuizRoute d now (insertQuizSchema reqBody)
      = (d, json 400 (MessageZod "Invalid quiz data"))
  end.
Proof.
  unfold quizPost, quizRequest, blank.
  destruct (String.eqb (trim name) ""); [discriminate|].
  intros H'. inversion H'; subst reqBody; clear H'.
  destruct (currentUserId userId) as [n|].
  - eexists. split; reflexivity.
  - reflexivity.
Qed.

Lemma quiz_post_passes_the_schema_with_a_numeric_user_id_witness :
  exists reqBody quizData_,
    quizPost " Ada " (Some "7") "AB12" "ada-1" "tok" = Some reqBody
    /\ quizRequest " Ada " 7 "AB12" "ada-1" "tok" = Some quizData_
    /\ insertQuizSchema reqBody = Ok quizData_.
Proof.
  eexists. 
  destruct (quiz_post_passes_the_schema_with_a_numeric_user_id " Ada " (Some "7")
              "AB12" "ada-1" "tok" _ sampleDb 0 eq_refl)
    as (quizData_ & Hreq & Hparse).
  exists quizData_. split; [reflexivity|]. split; [exact Hreq|exact Hparse].
Defined.

(** X21: the question handler refuses every question that the editor's
    page posts, as invalid and before the storage layer is called: the
    body has the question under [question] and no [text]. *)
Theorem editor_question_posts_are_refused
    (createQuestion : InsertQuestion -> Exc Schema.Question)
    (quizId_ : Z) (index : nat) (q : NewQuestion) :
  createQuestionRoute createQuestion (questionPost quizId_ index q)
  = QuestionError (json 400 (MessageZod "Invalid question data")).
Proof.
  unfold createQuestionRoute, questionPost, insertQuestionSchema.
  destruct (correctAnswer q); reflexivity.
Qed.

(** X22: the quiz handler refuses the quiz that the quiz form posts,
    whatever its questions, as invalid and without storing anything: the
    body has a creator name and the questions, and none of the other
    fields of the schema. *)
Theorem form_quiz_post_is_refused
    (d : Db) (now : Z) (username : string) (questions_ : list Listed) :
  createQuizRoute d now (insertQuizSchema (quizData username questions_))
  = (d, json 400 (MessageZod "Invalid quiz data")).
Proof. reflexivity. Qed.

(** X23: the attempt handler refuses every attempt that the quiz page
    posts, as invalid and without storing anything, however the stored
    text of the answers would be read: the body has the id of the user as
    a string and the answers as an array, where the schema has a number
    and a string. *)
Theorem page_attempt_posts_are_refused
    (decode : AttemptColumns -> Exc InsertQuizAttempt)
    (d : Db) (now : Z) (quizId_ userId : option Z) (userName_ : string)
    (questions_ : list Z) (answers_ : list GivenAnswer) (score_ : Z) :
  createAttemptRoute d now
    (bindExc (insertQuizAttemptSchema
                (attemptPost quizId_ userId userName_ questions_ answers_ score_))
       decode)
  = (d, json 400 (MessageZod "Invalid attempt data")).
Proof.
  unfold attemptPost. destruct quizId_; reflexivity.
Qed.





